(** * suite_trading: the [Money] value type

    A shallow embedding of [suite_trading/domain/monetary/money.py] and of the
    part of Python's [decimal] module the class relies on, followed by the
    properties of construction, comparison, arithmetic, formatting and parsing.

    Conventions.
    - Python [str] is [list ascii]: text over the code points below 256.
    - A Python call either returns a value or raises: [outcome A].
    - [decimal.Decimal] is the triple (sign, coefficient, exponent) of the
      reference implementation, plus the special values.  The arithmetic
      context is the one the module installs: [prec = 28], rounding
      [ROUND_HALF_EVEN], [Emax = 999999], [Emin = -999999], no clamping, and
      the default traps ([InvalidOperation], [DivisionByZero], [Overflow]).
    - [Currency] belongs to another module; its code, its precision and its
      equality are what [Money] uses of it, and its lookup by code is a
      parameter of [from_str]. *)

From Stdlib Require Import QArith Qabs Qpower ZArith NArith List Ascii String Bool Lia.
Import ListNotations.
Open Scope Z_scope.

(** ** Text *)

Definition str := list ascii.

Definition lit (s : string) : str := list_ascii_of_string s.

(** ** Exceptions and results *)

(** The [raise] sites of [money.py] that raise [ValueError]. *)
Inductive value_error :=
| NotConvertible       (* line 45 *)
| AboveMaximum         (* line 49 *)
| BelowMinimum         (* line 51 *)
| DifferentCurrencies  (* line 78 *)
| EmptyValueString     (* line 226 *)
| NotTwoParts          (* line 231 *)
| InvalidValuePart     (* line 238 *)
| InvalidCurrencyPart  (* line 243 *)
| ElsewhereRaised.     (* a ValueError of another module *)

(** The signals of the [decimal] module that are trapped, hence raised. *)
Inductive decimal_signal :=
| ConversionSyntax     (* an InvalidOperation *)
| InvalidOperation
| DivisionByZero
| Overflow.

Inductive exn :=
| ValueError (site : value_error)
| ZeroDivisionError
| DecimalException (sig : decimal_signal).

Inductive outcome (A : Type) :=
| Return (a : A)
| Raise (e : exn).
Arguments Return {A} a.
Arguments Raise {A} e.

Definition bind {A B} (m : outcome A) (k : A -> outcome B) : outcome B :=
  match m with
  | Return a => k a
  | Raise e => Raise e
  end.

Notation "x <- m ;; k" := (bind m (fun x => k))
  (at level 61, m at next level, right associativity).

(** [isinstance(e, (ValueError, TypeError))]: every decimal signal derives
    from [ArithmeticError], none from [ValueError] or [TypeError].  (The one
    [TypeError] of the module, for a currency that is no [Currency], cannot
    arise here: currencies are typed.) *)
Definition is_ValueError_or_TypeError (e : exn) : bool :=
  match e with
  | ValueError _ => true
  | ZeroDivisionError => false
  | DecimalException _ => false
  end.

(** [isinstance(e, (ValueError, TypeError, InvalidOperation))]. *)
Definition is_ValueError_TypeError_or_InvalidOperation (e : exn) : bool :=
  match e with
  | ValueError _ => true
  | ZeroDivisionError => false
  | DecimalException ConversionSyntax => true
  | DecimalException InvalidOperation => true
  | DecimalException _ => false
  end.

(** The error kinds of the specification, and the kind of each exception the
    module can raise.  A decimal signal that escapes is none of them. *)
Inductive ErrorKind :=
| ValueKind | FormatKind | RangeKind | CurrencyMismatchKind | DivisionByZeroKind.

Definition kind_of (e : exn) : option ErrorKind :=
  match e with
  | ValueError NotConvertible => Some ValueKind
  | ValueError AboveMaximum => Some RangeKind
  | ValueError BelowMinimum => Some RangeKind
  | ValueError DifferentCurrencies => Some CurrencyMismatchKind
  | ValueError EmptyValueString => Some FormatKind
  | ValueError NotTwoParts => Some FormatKind
  | ValueError InvalidValuePart => Some FormatKind
  | ValueError InvalidCurrencyPart => Some FormatKind
  | ValueError ElsewhereRaised => None
  | ZeroDivisionError => Some DivisionByZeroKind
  | DecimalException _ => None
  end.

(** ** Decimal digits *)

Definition digit_char (d : N) : ascii := ascii_of_N (48 + d).

Definition is_digit (c : ascii) : bool :=
  let n := N_of_ascii c in ((48 <=? n) && (n <=? 57))%N.

Definition digit_val (c : ascii) : N := (N_of_ascii c - 48)%N.

(** [int(s)] for a string of digits, most significant first. *)
Definition digits_val (s : str) : N :=
  fold_left (fun a c => (a * 10 + digit_val c)%N) s 0%N.

Fixpoint digits_loop (fuel : nat) (n : N) (acc : str) : str :=
  match fuel with
  | O => acc
  | S f =>
      let acc' := digit_char (n mod 10) :: acc in
      if (n <? 10)%N then acc' else digits_loop f (n / 10) acc'
  end.

(** [str(n)] for a natural number; the binary length of [n] is fuel enough
    for its decimal digits. *)
Definition str_of_N (n : N) : str :=
  digits_loop (S (N.to_nat (N.log2 n))) n [].

(** [len(str(n))]. *)
Definition ndigits (n : N) : Z := Z.of_nat (List.length (str_of_N n)).

(** [str(z)] for a Python [int]. *)
Definition str_of_Z (z : Z) : str :=
  if z <? 0 then "-"%char :: str_of_N (Z.abs_N z) else str_of_N (Z.abs_N z).

(** ** [decimal.Decimal] *)

(** A finite number is [(-1)^sign * coeff * 10^exp]; the coefficient carries no
    leading zeros because it is a number.  The diagnostic payload of a NaN is
    not modelled: no operation of [Money] looks at it. *)
Inductive Decimal :=
| Fin (sign : bool) (coeff : N) (exp : Z)
| Inf (sign : bool)
| NaN (signaling : bool).

(** [getcontext().prec = 28], and the limits of the default context. *)
Definition prec : Z := 28.
Definition Emax : Z := 999999.
Definition Emin : Z := -999999.
Definition Etiny : Z := Emin - prec + 1.
Definition Etop : Z := Emax - prec + 1.

Definition pow10 (k : Z) : N := (10 ^ Z.to_N k)%N.

(** The value of a finite triple as an integer multiple of [10^e0], for an
    [e0] not above the exponent. *)
Definition scaled (s : bool) (c : N) (e e0 : Z) : Z :=
  (if s then -1 else 1) * Z.of_N (c * pow10 (e - e0)).

(** *** Rounding *)

(** [ROUND_HALF_EVEN] on the quotient [c / m]: does it round away from zero? *)
Definition rounds_up (c m : N) : bool :=
  match (2 * (c mod m) ?= m)%N with
  | Lt => false
  | Gt => true
  | Eq => N.odd (c / m)
  end.

Definition div_half_even (c m : N) : N :=
  if rounds_up c m then (c / m + 1)%N else (c / m)%N.

(** [Decimal._rescale(exp, ROUND_HALF_EVEN)]. *)
Definition rescale (d : Decimal) (e' : Z) : Decimal :=
  match d with
  | Fin s c e =>
      if (c =? 0)%N then Fin s 0 e'
      else if e' <=? e then Fin s (c * pow10 (e - e')) e'
      else Fin s (div_half_even c (pow10 (e' - e))) e'
  | _ => d
  end.

(** [Decimal._fix(context)]: round to the context precision and check the
    exponent.  Signals that are not trapped leave no trace. *)
Definition fix_ctx (d : Decimal) : outcome Decimal :=
  match d with
  | Fin s c e =>
      if (c =? 0)%N then Return (Fin s 0 (Z.min (Z.max e Etiny) Emax))
      else
        let exp_min := ndigits c + e - prec in
        if exp_min >? Etop then Raise (DecimalException Overflow)
        else
          let exp_min := if exp_min <? Etiny then Etiny else exp_min in
          if e <? exp_min then
            let m := pow10 (exp_min - e) in
            let up := rounds_up c m in
            let coeff := div_half_even c m in
            let fold := up && (ndigits coeff >? prec) in
            let coeff := if fold then (coeff / 10)%N else coeff in
            let exp_min := if fold then exp_min + 1 else exp_min in
            if exp_min >? Etop then Raise (DecimalException Overflow)
            else Return (Fin s coeff exp_min)
          else Return d
  | _ => Return d
  end.

(** *** Comparison *)

(** [Decimal._cmp] on two numbers; [None] when a NaN is involved. *)
Definition dec_compare (a b : Decimal) : option comparison :=
  match a, b with
  | NaN _, _ | _, NaN _ => None
  | Inf s1, Inf s2 => Some (if s1 then (if s2 then Eq else Lt)
                            else (if s2 then Gt else Eq))
  | Inf s1, Fin _ _ _ => Some (if s1 then Lt else Gt)
  | Fin _ _ _, Inf s2 => Some (if s2 then Gt else Lt)
  | Fin s1 c1 e1, Fin s2 c2 e2 =>
      let e0 := Z.min e1 e2 in
      Some (scaled s1 c1 e1 e0 ?= scaled s2 c2 e2 e0)
  end.

(** [a < b], [a <= b], [a > b], [a >= b]: a comparison that involves a NaN
    signals [InvalidOperation]. *)
Definition dec_order (test : comparison -> bool) (a b : Decimal) : outcome bool :=
  match dec_compare a b with
  | Some c => Return (test c)
  | None => Raise (DecimalException InvalidOperation)
  end.

Definition is_Lt (c : comparison) : bool := match c with Lt => true | _ => false end.
Definition is_Gt (c : comparison) : bool := match c with Gt => true | _ => false end.
Definition is_Eq (c : comparison) : bool := match c with Eq => true | _ => false end.

Definition dec_lt := dec_order is_Lt.
Definition dec_gt := dec_order is_Gt.
Definition dec_le := dec_order (fun c => negb (is_Gt c)).
Definition dec_ge := dec_order (fun c => negb (is_Lt c)).

(** [a == b]: false when a quiet NaN is involved, [InvalidOperation] for a
    signaling one. *)
Definition dec_eq (a b : Decimal) : outcome bool :=
  match a, b with
  | NaN true, _ | _, NaN true => Raise (DecimalException InvalidOperation)
  | _, _ =>
      match dec_compare a b with
      | Some c => Return (is_Eq c)
      | None => Return false
      end
  end.

(** *** Arithmetic *)

(** [Decimal._check_nans]: a signaling NaN raises, a quiet one is the result. *)
Definition check_nans (a b : Decimal) : option (outcome Decimal) :=
  match a, b with
  | NaN true, _ | _, NaN true => Some (Raise (DecimalException InvalidOperation))
  | NaN false, _ | _, NaN false => Some (Return (NaN false))
  | _, _ => None
  end.

Definition copy_negate (d : Decimal) : Decimal :=
  match d with
  | Fin s c e => Fin (negb s) c e
  | Inf s => Inf (negb s)
  | NaN g => NaN g
  end.

Definition copy_abs (d : Decimal) : Decimal :=
  match d with
  | Fin _ c e => Fin false c e
  | Inf _ => Inf false
  | NaN g => NaN g
  end.

Definition is_zero (d : Decimal) : bool :=
  match d with
  | Fin _ c _ => (c =? 0)%N
  | _ => false
  end.

(** [a + b]: the exact sum at the smaller exponent, rounded by [fix_ctx].  (The
    module shortens an operand that lies far below the other before adding;
    the rounded sum is the same.) *)
Definition dec_add (a b : Decimal) : outcome Decimal :=
  match check_nans a b with
  | Some r => r
  | None =>
      match a, b with
      | Inf s1, Inf s2 =>
          if Bool.eqb s1 s2 then Return a
          else Raise (DecimalException InvalidOperation)
      | Inf _, _ => Return a
      | _, Inf _ => Return b
      | Fin s1 c1 e1, Fin s2 c2 e2 =>
          let e0 := Z.min e1 e2 in
          let v := scaled s1 c1 e1 e0 + scaled s2 c2 e2 e0 in
          let s := if v =? 0
                   then (c1 =? 0)%N && (c2 =? 0)%N && s1 && s2
                   else v <? 0 in
          fix_ctx (Fin s (Z.abs_N v) e0)
      | _, _ => Return a
      end
  end.

(** [a - b] is [a + b.copy_negate()] once the NaNs are dealt with. *)
Definition dec_sub (a b : Decimal) : outcome Decimal :=
  match check_nans a b with
  | Some r => r
  | None => dec_add a (copy_negate b)
  end.

Definition dec_mul (a b : Decimal) : outcome Decimal :=
  match check_nans a b with
  | Some r => r
  | None =>
      match a, b with
      | Inf s1, Inf s2 => Return (Inf (xorb s1 s2))
      | Inf s1, Fin s2 c2 _ =>
          if (c2 =? 0)%N then Raise (DecimalException InvalidOperation)
          else Return (Inf (xorb s1 s2))
      | Fin s1 c1 _, Inf s2 =>
          if (c1 =? 0)%N then Raise (DecimalException InvalidOperation)
          else Return (Inf (xorb s1 s2))
      | Fin s1 c1 e1, Fin s2 c2 e2 =>
          fix_ctx (Fin (xorb s1 s2) (c1 * c2) (e1 + e2))
      | _, _ => Return a
      end
  end.

(** The loop of [__truediv__] that brings an exact quotient as close to the
    ideal exponent as its trailing zeros allow. *)
Fixpoint strip_zeros (fuel : nat) (coeff : N) (e : Z) : N * Z :=
  match fuel with
  | O => (coeff, e)
  | S f =>
      if (coeff mod 10 =? 0)%N then strip_zeros f (coeff / 10) (e + 1)
      else (coeff, e)
  end.

Definition dec_div (a b : Decimal) : outcome Decimal :=
  match check_nans a b with
  | Some r => r
  | None =>
      match a, b with
      | Inf _, Inf _ => Raise (DecimalException InvalidOperation)
      | Inf s1, Fin s2 _ _ => Return (Inf (xorb s1 s2))
      | Fin s1 _ _, Inf s2 => Return (Fin (xorb s1 s2) 0 Etiny)
      | Fin s1 c1 e1, Fin s2 c2 e2 =>
          let sign := xorb s1 s2 in
          if (c2 =? 0)%N then
            if (c1 =? 0)%N then Raise (DecimalException InvalidOperation)
            else Raise (DecimalException DivisionByZero)
          else if (c1 =? 0)%N then fix_ctx (Fin sign 0 (e1 - e2))
          else
            let shift := ndigits c2 - ndigits c1 + prec + 1 in
            let e := e1 - e2 - shift in
            let num := if 0 <=? shift then (c1 * pow10 shift)%N else c1 in
            let den := if 0 <=? shift then c2 else (c2 * pow10 (- shift))%N in
            let coeff := (num / den)%N in
            let remainder := (num mod den)%N in
            if (remainder =? 0)%N then
              let ideal_exp := e1 - e2 in
              let '(coeff, e) := strip_zeros (Z.to_nat (ideal_exp - e)) coeff e in
              fix_ctx (Fin sign coeff e)
            else
              let coeff := if (coeff mod 5 =? 0)%N then (coeff + 1)%N else coeff in
              fix_ctx (Fin sign coeff e)
      | _, _ => Return a
      end
  end.

(** [-a], [+a] and [abs(a)]: a zero loses its sign (the rounding is not
    [ROUND_FLOOR]). *)
Definition dec_neg (a : Decimal) : outcome Decimal :=
  match a with
  | NaN true => Raise (DecimalException InvalidOperation)
  | NaN false => Return a
  | _ => if is_zero a then fix_ctx (copy_abs a) else fix_ctx (copy_negate a)
  end.

Definition dec_pos (a : Decimal) : outcome Decimal :=
  match a with
  | NaN true => Raise (DecimalException InvalidOperation)
  | NaN false => Return a
  | _ => if is_zero a then fix_ctx (copy_abs a) else fix_ctx a
  end.

Definition sign_of (d : Decimal) : bool :=
  match d with
  | Fin s _ _ => s
  | Inf s => s
  | NaN _ => false
  end.

Definition dec_abs (a : Decimal) : outcome Decimal :=
  match a with
  | NaN true => Raise (DecimalException InvalidOperation)
  | NaN false => Return a
  | _ => if sign_of a then dec_neg a else dec_pos a
  end.

(** [Decimal.quantize(exp)] with the context's rounding. *)
Definition quantize (d q : Decimal) : outcome Decimal :=
  match check_nans d q with
  | Some r => r
  | None =>
      match d, q with
      | Inf _, Inf _ => Return d
      | Inf _, _ | _, Inf _ => Raise (DecimalException InvalidOperation)
      | Fin s c e, Fin _ _ qe =>
          if negb ((Etiny <=? qe) && (qe <=? Emax))
          then Raise (DecimalException InvalidOperation)
          else if (c =? 0)%N then fix_ctx (Fin s 0 qe)
          else
            let self_adjusted := e + ndigits c - 1 in
            if self_adjusted >? Emax
            then Raise (DecimalException InvalidOperation)
            else if self_adjusted - qe + 1 >? prec
            then Raise (DecimalException InvalidOperation)
            else
              match rescale d qe with
              | Fin _ c' e' as ans =>
                  if e' + ndigits c' - 1 >? Emax
                  then Raise (DecimalException InvalidOperation)
                  else if ndigits c' >? prec
                  then Raise (DecimalException InvalidOperation)
                  else fix_ctx ans
              | ans => Return ans
              end
      | _, _ => Return d
      end
  end.

(** *** Decimal text *)

(** The characters [str.strip()] and [str.split()] treat as white space,
    among the code points below 256. *)
Definition is_space (c : ascii) : bool :=
  let n := N_of_ascii c in
  ((9 <=? n) && (n <=? 13) || (28 <=? n) && (n <=? 32)
   || (n =? 133) || (n =? 160))%N.

Fixpoint lstrip (s : str) : str :=
  match s with
  | c :: r => if is_space c then lstrip r else s
  | [] => []
  end.

Definition strip (s : str) : str := rev (lstrip (rev (lstrip s))).

Definition remove_underscores (s : str) : str :=
  filter (fun c => negb (Ascii.eqb c "_")) s.

Definition lower (c : ascii) : ascii :=
  let n := N_of_ascii c in
  if ((65 <=? n) && (n <=? 90))%N then ascii_of_N (n + 32) else c.

Fixpoint str_eqb (a b : str) : bool :=
  match a, b with
  | [], [] => true
  | x :: a', y :: b' => Ascii.eqb x y && str_eqb a' b'
  | _, _ => false
  end.

(** The longest prefix of digits, and what follows it. *)
Fixpoint span_digits (s : str) : str * str :=
  match s with
  | c :: r =>
      if is_digit c then let (d, t) := span_digits r in (c :: d, t)
      else ([], s)
  | [] => ([], [])
  end.

Definition take_sign (s : str) : bool * str :=
  match s with
  | "-"%char :: r => (true, r)
  | "+"%char :: r => (false, r)
  | _ => (false, s)
  end.

Definition all_digits (s : str) : bool := forallb is_digit s.

(** The exponent part [(E[-+]?\d+)?] up to the end of the text. *)
Definition parse_exponent (s : str) : option Z :=
  match s with
  | [] => Some 0
  | c :: r =>
      if Ascii.eqb (lower c) "e" then
        let (neg, ds) := take_sign r in
        match ds with
        | [] => None
        | _ =>
            if all_digits ds
            then Some (if neg then - Z.of_N (digits_val ds) else Z.of_N (digits_val ds))
            else None
        end
      else None
  end.

(** A number: digits with an optional fraction and an optional exponent, and
    at least one digit in the integer or the fractional part. *)
Definition parse_finite (sign : bool) (s : str) : option Decimal :=
  let (intpart, r1) := span_digits s in
  let (fracpart, r2) :=
    match r1 with
    | "."%char :: r => span_digits r
    | _ => ([], r1)
    end in
  match intpart ++ fracpart with
  | [] => None
  | ds =>
      match parse_exponent r2 with
      | Some x => Some (Fin sign (digits_val ds) (x - Z.of_nat (List.length fracpart)))
      | None => None
      end
  end.

(** [Inf(inity)?] or [s?NaN\d*], letters in either case. *)
Definition parse_special (sign : bool) (s : str) : option Decimal :=
  let l := map lower s in
  if str_eqb l (lit "inf") || str_eqb l (lit "infinity") then Some (Inf sign)
  else
    match l with
    | "n"%char :: "a"%char :: "n"%char :: diag =>
        if all_digits diag then Some (NaN false) else None
    | "s"%char :: "n"%char :: "a"%char :: "n"%char :: diag =>
        if all_digits diag then Some (NaN true) else None
    | _ => None
    end.

(** [Decimal(text)]: white space around the literal and underscores are
    dropped; a text that is not a literal signals [ConversionSyntax], an
    [InvalidOperation]. *)
Definition Decimal_of_str (s : str) : outcome Decimal :=
  let s := remove_underscores (strip s) in
  let (sign, r) := take_sign s in
  match parse_finite sign r with
  | Some d => Return d
  | None =>
      match parse_special sign r with
      | Some d => Return d
      | None => Raise (DecimalException ConversionSyntax)
      end
  end.

Definition zeros (n : Z) : str := repeat "0"%char (Z.to_nat n).

(** ["%+d" % z]. *)
Definition str_plus_d (z : Z) : str :=
  (if z <? 0 then "-"%char else "+"%char) :: str_of_N (Z.abs_N z).

(** [str(d)]: plain notation when the exponent is not positive and at most
    five zeros would follow the point, scientific notation otherwise. *)
Definition dec_str (d : Decimal) : str :=
  match d with
  | Inf s => (if s then lit "-" else []) ++ lit "Infinity"
  | NaN g => if g then lit "sNaN" else lit "NaN"
  | Fin s c e =>
      let digits := str_of_N c in
      let len := Z.of_nat (List.length digits) in
      let leftdigits := e + len in
      let dotplace := if (e <=? 0) && (leftdigits >? -6) then leftdigits else 1 in
      let intpart :=
        if dotplace <=? 0 then lit "0"
        else if dotplace >=? len then digits ++ zeros (dotplace - len)
        else firstn (Z.to_nat dotplace) digits in
      let fracpart :=
        if dotplace <=? 0 then "."%char :: zeros (- dotplace) ++ digits
        else if dotplace >=? len then []
        else "."%char :: skipn (Z.to_nat dotplace) digits in
      let exp :=
        if leftdigits =? dotplace then []
        else "E"%char :: str_plus_d (leftdigits - dotplace) in
      (if s then lit "-" else []) ++ intpart ++ fracpart ++ exp
  end.

(** ** Currency *)

(** Modelled from the spec: the [Currency] class lives in
    [suite_trading/domain/monetary/currency.py]; of it [Money] uses the code,
    the precision and equality, which the specification states is by code. *)
Record Currency := { code : str; precision : Z }.

Definition Currency_eqb (a b : Currency) : bool := str_eqb (code a) (code b).

(** ** Money *)

Record Money := { value : Decimal; currency : Currency }.

(** The Python values that reach the methods of [Money].  A [float] is given
    by the text [str()] renders it with. *)
Inductive PyValue :=
| VInt (z : Z)
| VFloat (repr : str)
| VStr (s : str)
| VDecimal (d : Decimal)
| VMoney (m : Money)
| VBool (b : bool)
| VNone
| NotImplemented.

(** [Money.__str__] *)
Definition __str__ (m : Money) : str :=
  dec_str (value m) ++ lit " " ++ code (currency m).

(** [str(v)] *)
Definition py_str (v : PyValue) : str :=
  match v with
  | VInt z => str_of_Z z
  | VFloat r => r
  | VStr s => s
  | VDecimal d => dec_str d
  | VMoney m => __str__ m
  | VBool b => if b then lit "True" else lit "False"
  | VNone => lit "None"
  | NotImplemented => lit "NotImplemented"
  end.

(** [Money.MAX_VALUE] and [Money.MIN_VALUE], as [Decimal] reads their
    literals. *)
Definition MAX_VALUE : Decimal := Fin false 999999999999999999999999999999 (-18).
Definition MIN_VALUE : Decimal := Fin true 999999999999999999999999999999 (-18).

Definition precision_str (p : Z) : str :=
  if p >? 0 then lit "0." ++ zeros p else lit "1".

(** [Money.__init__]; the currency is a [Currency] by its type, so the
    [isinstance] check passes. *)
Definition __init__ (v : PyValue) (cur : Currency) : outcome Money :=
  decimal_value <-
    match (match v with
           | VDecimal d => Return d
           | _ => Decimal_of_str (py_str v)
           end) with
    | Raise e =>
        if is_ValueError_or_TypeError e then Raise (ValueError NotConvertible)
        else Raise e
    | Return d => Return d
    end ;;
  above <- dec_gt decimal_value MAX_VALUE ;;
  if above : bool then Raise (ValueError AboveMaximum) else
  below <- dec_lt decimal_value MIN_VALUE ;;
  if below : bool then Raise (ValueError BelowMinimum) else
  q <- Decimal_of_str (precision_str (precision cur)) ;;
  rounded <- quantize decimal_value q ;;
  Return {| value := rounded; currency := cur |}.

(** [Money._check_same_currency] *)
Definition _check_same_currency (self other : Money) : outcome unit :=
  if negb (Currency_eqb (currency self) (currency other))
  then Raise (ValueError DifferentCurrencies)
  else Return tt.

(** *** Comparison operators *)

Definition __eq__ (self : Money) (other : PyValue) : outcome PyValue :=
  match other with
  | VMoney o =>
      if negb (Currency_eqb (currency self) (currency o)) then Return (VBool false)
      else b <- dec_eq (value self) (value o) ;; Return (VBool b)
  | _ => Return (VBool false)
  end.

Definition __lt__ (self : Money) (other : PyValue) : outcome PyValue :=
  match other with
  | VMoney o =>
      _ <- _check_same_currency self o ;;
      b <- dec_lt (value self) (value o) ;; Return (VBool b)
  | _ => Return NotImplemented
  end.

Definition __le__ (self : Money) (other : PyValue) : outcome PyValue :=
  match other with
  | VMoney o =>
      _ <- _check_same_currency self o ;;
      b <- dec_le (value self) (value o) ;; Return (VBool b)
  | _ => Return NotImplemented
  end.

Definition __gt__ (self : Money) (other : PyValue) : outcome PyValue :=
  match other with
  | VMoney o =>
      _ <- _check_same_currency self o ;;
      b <- dec_gt (value self) (value o) ;; Return (VBool b)
  | _ => Return NotImplemented
  end.

Definition __ge__ (self : Money) (other : PyValue) : outcome PyValue :=
  match other with
  | VMoney o =>
      _ <- _check_same_currency self o ;;
      b <- dec_ge (value self) (value o) ;; Return (VBool b)
  | _ => Return NotImplemented
  end.

(** *** Arithmetic operators *)

(** [try: ... except (ValueError, TypeError): return NotImplemented] *)
Definition except_NotImplemented (body : outcome PyValue) : outcome PyValue :=
  match body with
  | Raise e => if is_ValueError_or_TypeError e then Return NotImplemented else Raise e
  | Return v => Return v
  end.

(** [Money(d, currency)] as the value of an expression. *)
Definition new_Money (d : Decimal) (cur : Currency) : outcome PyValue :=
  m <- __init__ (VDecimal d) cur ;; Return (VMoney m).

Definition __add__ (self : Money) (other : PyValue) : outcome PyValue :=
  match other with
  | VMoney o =>
      _ <- _check_same_currency self o ;;
      s <- dec_add (value self) (value o) ;;
      new_Money s (currency self)
  | _ =>
      except_NotImplemented
        (d <- Decimal_of_str (py_str other) ;;
         s <- dec_add (value self) d ;;
         new_Money s (currency self))
  end.

Definition __radd__ (self : Money) (other : PyValue) : outcome PyValue :=
  __add__ self other.

Definition __sub__ (self : Money) (other : PyValue) : outcome PyValue :=
  match other with
  | VMoney o =>
      _ <- _check_same_currency self o ;;
      s <- dec_sub (value self) (value o) ;;
      new_Money s (currency self)
  | _ =>
      except_NotImplemented
        (d <- Decimal_of_str (py_str other) ;;
         s <- dec_sub (value self) d ;;
         new_Money s (currency self))
  end.

Definition __rsub__ (self : Money) (other : PyValue) : outcome PyValue :=
  except_NotImplemented
    (d <- Decimal_of_str (py_str other) ;;
     s <- dec_sub d (value self) ;;
     new_Money s (currency self)).

Definition __mul__ (self : Money) (other : PyValue) : outcome PyValue :=
  match other with
  | VMoney _ => Return NotImplemented
  | _ =>
      except_NotImplemented
        (d <- Decimal_of_str (py_str other) ;;
         p <- dec_mul (value self) d ;;
         new_Money p (currency self))
  end.

Definition __rmul__ (self : Money) (other : PyValue) : outcome PyValue :=
  __mul__ self other.

Definition zero : Decimal := Fin false 0 0.

Definition __truediv__ (self : Money) (other : PyValue) : outcome PyValue :=
  match other with
  | VMoney o =>
      _ <- _check_same_currency self o ;;
      z <- dec_eq (value o) zero ;;
      if z : bool then Raise ZeroDivisionError
      else q <- dec_div (value self) (value o) ;; Return (VDecimal q)
  | _ =>
      except_NotImplemented
        (divisor <- Decimal_of_str (py_str other) ;;
         z <- dec_eq divisor zero ;;
         if z : bool then Raise ZeroDivisionError
         else q <- dec_div (value self) divisor ;; new_Money q (currency self))
  end.

Definition __rtruediv__ (self : Money) (other : PyValue) : outcome PyValue :=
  Return NotImplemented.

Definition __neg__ (self : Money) : outcome PyValue :=
  d <- dec_neg (value self) ;; new_Money d (currency self).

Definition __pos__ (self : Money) : outcome PyValue :=
  new_Money (value self) (currency self).

Definition __abs__ (self : Money) : outcome PyValue :=
  d <- dec_abs (value self) ;; new_Money d (currency self).

(** *** Parsing *)

(** [str.split()]: the maximal runs of characters that are not white space. *)
Fixpoint split_loop (s : str) (word : str) : list str :=
  match s with
  | [] => match word with [] => [] | _ => [rev word] end
  | c :: r =>
      if is_space c then
        match word with
        | [] => split_loop r []
        | _ => rev word :: split_loop r []
        end
      else split_loop r (c :: word)
  end.

Definition split (s : str) : list str := split_loop s [].

Section Parsing.

(** [Currency.from_str], the registry lookup of the currency module, which
    is not part of [money.py]. *)
Variable Currency_from_str : str -> outcome Currency.

(** [Money.from_str] *)
Definition from_str (value_str : str) : outcome Money :=
  let value_str := strip value_str in
  match value_str with
  | [] => Raise (ValueError EmptyValueString)
  | _ =>
      match split value_str with
      | [value_part; currency_part] =>
          v <- match Decimal_of_str value_part with
               | Raise e =>
                   if is_ValueError_TypeError_or_InvalidOperation e
                   then Raise (ValueError InvalidValuePart) else Raise e
               | Return d => Return d
               end ;;
          cur <- match Currency_from_str currency_part with
                 | Raise (ValueError _) => Raise (ValueError InvalidCurrencyPart)
                 | r => r
                 end ;;
          __init__ (VDecimal v) cur
      | _ => Raise (ValueError NotTwoParts)
      end
  end.

End Parsing.

(** ** The numbers decimals denote *)

(** The rational a finite triple stands for; the statements below speak of
    amounts through it. *)
Definition signed (s : bool) (c : N) : Z := if s then - Z.of_N c else Z.of_N c.

Definition Q10 (e : Z) : Q := Qpower (inject_Z 10) e.

Definition Qval (s : bool) (c : N) (e : Z) : Q := (inject_Z (signed s c) * Q10 e)%Q.

Definition MAX_Q : Q := 999999999999999999999999999999 # 1000000000000000000.
Definition MIN_Q : Q := (- 999999999999999999999999999999) # 1000000000000000000.

(** A decimal lies outside [[MIN_VALUE, MAX_VALUE]]: a number above or below
    the interval; an infinity does, a NaN is not ordered. *)
Definition outside_range (d : Decimal) : Prop :=
  match d with
  | Fin s c e => (MAX_Q < Qval s c e)%Q \/ (Qval s c e < MIN_Q)%Q
  | Inf _ => True
  | NaN _ => False
  end.

Definition in_range (d : Decimal) : Prop :=
  match d with
  | Fin s c e => (MIN_Q <= Qval s c e)%Q /\ (Qval s c e <= MAX_Q)%Q
  | _ => False
  end.

(** The decimal [Money.__init__] works on: the argument itself when it is a
    [Decimal], [Decimal(str(value))] otherwise. *)
Definition to_decimal (v : PyValue) : outcome Decimal :=
  match v with
  | VDecimal d => Return d
  | _ => Decimal_of_str (py_str v)
  end.

(** The exponent [Money.__init__] quantizes to. *)
Definition stored_exp (cur : Currency) : Z :=
  if precision cur >? 0 then - precision cur else 0.

(** The amounts that exist: those a call of the constructor returned. *)
Definition constructed (m : Money) : Prop :=
  exists v cur, __init__ v cur = Return m.

(** The characters of a decimal literal in the notation [str()] produces. *)
Definition literal_char (c : ascii) : bool :=
  is_digit c || Ascii.eqb c "." || Ascii.eqb c "-" || Ascii.eqb c "+"
  || Ascii.eqb c "E".

Definition plain_char (c : ascii) : bool :=
  negb (is_space c) && negb (Ascii.eqb c "_").

(** Where a run of digits ends. *)
Definition no_digit_head (s : str) : Prop :=
  match s with
  | [] => True
  | c :: _ => is_digit c = false
  end.

(** The coefficient [Decimal._rescale] gives a finite number at exponent [e']. *)
Definition rescale_coeff (c : N) (e e' : Z) : N :=
  if (c =? 0)%N then 0%N
  else if e' <=? e then (c * pow10 (e - e'))%N
  else div_half_even c (pow10 (e' - e)).

(** [Decimal(precision_str)], the second argument of [quantize]. *)
Definition quantum (cur : Currency) : Decimal :=
  Fin false (if precision cur >? 0 then 0 else 1) (stored_exp cur).

(** Two decimals denote the same number. *)
Definition same_value (x y : Decimal) : Prop :=
  match x, y with
  | Fin s1 c1 e1, Fin s2 c2 e2 => (Qval s1 c1 e1 == Qval s2 c2 e2)%Q
  | Inf s1, Inf s2 => s1 = s2
  | _, _ => False
  end.

(** A text [str.split()] keeps whole: not empty and free of white space. *)
Definition token (s : str) : Prop :=
  s <> [] /\ forallb (fun ch => negb (is_space ch)) s = true.

(** [Money.__repr__], for an instance of [Money] itself (a subclass would
    print its own name). *)
Definition __repr__ (m : Money) : str :=
  lit "Money(" ++ dec_str (value m) ++ lit ", " ++ code (currency m) ++ lit ")".

(** The number an amount holds. *)
Definition amount_Q (m : Money) : Q :=
  match value m with
  | Fin s c e => Qval s c e
  | _ => 0%Q
  end.

(** A run of white space. *)
Definition blank (s : str) : Prop := forallb is_space s = true.

(** Sample currencies. *)
Definition USD : Currency := {| code := lit "USD"; precision := 2 |}.
Definition EUR : Currency := {| code := lit "EUR"; precision := 2 |}.
Definition ETH : Currency := {| code := lit "ETH"; precision := 18 |}.
Definition X16 : Currency := {| code := lit "X16"; precision := 16 |}.

(** Sample amounts: [Money(n, USD)] for a whole number [n] of dollars. *)
Definition dollars (n : N) : Money :=
  {| value := Fin false (n * 100) (-2); currency := USD |}.


(** * Properties *)

(** ** Exceptions *)

Lemma bind_Return_inv {A B} (m : outcome A) (k : A -> outcome B) (b : B) :
  bind m k = Return b -> exists a, m = Return a /\ k a = Return b.
Proof.
  destruct m as [a|e]; simpl; intros H.
  - exists a. split; [reflexivity | exact H].
  - discriminate H.
Qed.

(** ** Digits *)

Lemma digit_char_val d : (d < 10)%N -> digit_val (digit_char d) = d.
Proof.
  intros H. unfold digit_val, digit_char.
  rewrite N_ascii_embedding by lia. lia.
Qed.

Lemma digit_char_is_digit d : (d < 10)%N -> is_digit (digit_char d) = true.
Proof.
  intros H. unfold is_digit, digit_char.
  rewrite N_ascii_embedding by lia.
  apply andb_true_intro. split; apply N.leb_le; lia.
Qed.

Lemma digits_loop_fuel f1 : forall f2 n acc,
  (n < 2 ^ N.of_nat f1)%N -> (n < 2 ^ N.of_nat f2)%N ->
  f1 <> O -> f2 <> O ->
  digits_loop f1 n acc = digits_loop f2 n acc.
Proof.
  induction f1 as [|f1 IH]; intros f2 n acc H1 H2 N1 N2; [congruence|].
  destruct f2 as [|f2]; [congruence|].
  simpl. destruct (N.ltb_spec n 10) as [Hlt|Hge]; [reflexivity|].
  assert (Hq : (1 <= n / 10)%N) by (apply N.div_le_lower_bound; lia).
  assert (Hdiv : forall k, (n < 2 ^ N.of_nat (S k))%N ->
                           (n / 10 < 2 ^ N.of_nat k)%N /\ k <> O).
  { intros k Hk. rewrite Nnat.Nat2N.inj_succ, N.pow_succ_r' in Hk.
    assert (Hlt : (n / 10 < 2 ^ N.of_nat k)%N)
      by (apply N.Div0.div_lt_upper_bound; lia).
    split; [exact Hlt|]. intros ->. simpl in Hlt. lia. }
  destruct (Hdiv _ H1) as [A1 B1]. destruct (Hdiv _ H2) as [A2 B2].
  apply IH; assumption.
Qed.

Lemma digits_loop_acc f : forall n acc,
  digits_loop f n acc = digits_loop f n [] ++ acc.
Proof.
  induction f as [|f IH]; intros n acc; [reflexivity|].
  simpl. destruct (n <? 10)%N; [reflexivity|].
  rewrite IH. rewrite (IH _ [_]). rewrite <- app_assoc. reflexivity.
Qed.

Lemma log2_fuel n : (n < 2 ^ N.of_nat (S (N.to_nat (N.log2 n))))%N.
Proof.
  rewrite Nnat.Nat2N.inj_succ, Nnat.N2Nat.id.
  destruct n as [|p]; [reflexivity|].
  apply N.log2_spec. lia.
Qed.

Lemma str_of_N_small n : (n < 10)%N -> str_of_N n = [digit_char n].
Proof.
  intros H. unfold str_of_N. simpl.
  apply N.ltb_lt in H as H'. rewrite H'.
  rewrite N.mod_small by exact H. reflexivity.
Qed.

Lemma str_of_N_step n :
  (10 <= n)%N -> str_of_N n = str_of_N (n / 10) ++ [digit_char (n mod 10)].
Proof.
  intros H. unfold str_of_N at 1. simpl.
  destruct (N.ltb_spec n 10) as [Hlt|_]; [lia|].
  rewrite digits_loop_acc. f_equal.
  unfold str_of_N.
  assert (Hn := log2_fuel n).
  destruct (N.to_nat (N.log2 n)) as [|k] eqn:Hk.
  - exfalso. simpl in Hn. lia.
  - apply digits_loop_fuel; [|apply log2_fuel|congruence|congruence].
    rewrite Nnat.Nat2N.inj_succ, N.pow_succ_r' in Hn.
    apply N.Div0.div_lt_upper_bound. lia.
Qed.

Lemma digits_val_snoc s c :
  digits_val (s ++ [c]) = (digits_val s * 10 + digit_val c)%N.
Proof. unfold digits_val. rewrite fold_left_app. reflexivity. Qed.

Lemma str_of_N_ind (P : N -> Prop) :
  (forall n, (n < 10)%N -> P n) ->
  (forall n, (10 <= n)%N -> P (n / 10)%N -> P n) ->
  forall n, P n.
Proof.
  intros Hsmall Hstep n.
  induction n as [n IH] using (well_founded_induction N.lt_wf_0).
  destruct (N.ltb_spec n 10) as [Hlt|Hge].
  - apply Hsmall, Hlt.
  - apply Hstep; [exact Hge|]. apply IH.
    apply N.div_lt; lia.
Qed.

Lemma str_of_N_digits n : all_digits (str_of_N n) = true.
Proof.
  induction n as [n H|n H IH] using str_of_N_ind.
  - rewrite str_of_N_small by exact H. simpl.
    rewrite digit_char_is_digit by exact H. reflexivity.
  - rewrite str_of_N_step by exact H. unfold all_digits in *.
    rewrite forallb_app, IH. simpl.
    rewrite digit_char_is_digit; [reflexivity|].
    apply N.mod_lt. lia.
Qed.

Lemma digits_val_str_of_N n : digits_val (str_of_N n) = n.
Proof.
  induction n as [n H|n H IH] using str_of_N_ind.
  - rewrite str_of_N_small by exact H. unfold digits_val. simpl.
    apply digit_char_val, H.
  - rewrite str_of_N_step by exact H.
    rewrite digits_val_snoc, IH, digit_char_val by (apply N.mod_lt; lia).
    rewrite (N.div_mod n 10) at 3 by lia. lia.
Qed.

Lemma ndigits_small n : (n < 10)%N -> ndigits n = 1.
Proof. intros H. unfold ndigits. rewrite str_of_N_small by exact H. reflexivity. Qed.

Lemma ndigits_step n : (10 <= n)%N -> ndigits n = ndigits (n / 10) + 1.
Proof.
  intros H. unfold ndigits. rewrite str_of_N_step by exact H.
  rewrite length_app. simpl. lia.
Qed.

Lemma ndigits_pos n : 1 <= ndigits n.
Proof.
  induction n as [n H|n H IH] using str_of_N_ind.
  - rewrite ndigits_small by exact H. lia.
  - rewrite ndigits_step by exact H. lia.
Qed.

(** ** Powers of ten *)

Lemma pow10_pos k : (0 < pow10 k)%N.
Proof. unfold pow10. apply N.neq_0_lt_0, N.pow_nonzero. lia. Qed.

Lemma pow10_0 : pow10 0 = 1%N.
Proof. reflexivity. Qed.

Lemma pow10_add a b : 0 <= a -> 0 <= b -> pow10 (a + b) = (pow10 a * pow10 b)%N.
Proof.
  intros Ha Hb. unfold pow10. rewrite Z2N.inj_add by assumption.
  apply N.pow_add_r.
Qed.

Lemma pow10_succ a : 0 <= a -> pow10 (a + 1) = (10 * pow10 a)%N.
Proof.
  intros Ha. rewrite pow10_add by lia. change (pow10 1) with 10%N. lia.
Qed.

Lemma pow10_le a b : a <= b -> (pow10 a <= pow10 b)%N.
Proof.
  intros H. unfold pow10. apply N.pow_le_mono_r; lia.
Qed.

Lemma pow10_lt a b : a < b -> 0 < b -> (pow10 a < pow10 b)%N.
Proof.
  intros H Hb. unfold pow10. apply N.pow_lt_mono_r; lia.
Qed.

Lemma pow10_lt_inv a b : (pow10 a < pow10 b)%N -> a < b.
Proof.
  intros H. destruct (Z_lt_le_dec a b) as [L|L]; [exact L|].
  apply pow10_le in L. lia.
Qed.

Lemma ndigits_bounds n :
  (n <> 0)%N -> (pow10 (ndigits n - 1) <= n < pow10 (ndigits n))%N.
Proof.
  induction n as [n H|n H IH] using str_of_N_ind; intros Hn.
  - rewrite ndigits_small by exact H. simpl.
    change (pow10 0) with 1%N. change (pow10 1) with 10%N. lia.
  - rewrite ndigits_step by exact H.
    assert (Hq : (n / 10 <> 0)%N).
    { intros E. apply N.div_small_iff in E; lia. }
    specialize (IH Hq). pose proof (ndigits_pos (n / 10)) as Hp.
    replace (ndigits (n / 10) + 1 - 1) with (ndigits (n / 10) - 1 + 1) by lia.
    rewrite !pow10_succ by lia.
    pose proof (N.div_mod n 10 ltac:(lia)) as E.
    pose proof (N.mod_lt n 10 ltac:(lia)) as M.
    destruct IH as [L U].
    generalize dependent (pow10 (ndigits (n / 10) - 1)).
    generalize dependent (pow10 (ndigits (n / 10))).
    generalize dependent (n mod 10)%N.
    generalize dependent (n / 10)%N.
    intros. lia.
Qed.

Lemma ndigits_upper n : (n < pow10 (ndigits n))%N.
Proof.
  destruct (N.eq_dec n 0) as [->|Hn]; [reflexivity|].
  apply ndigits_bounds, Hn.
Qed.

Lemma ndigits_le n k : (n < pow10 k)%N -> 1 <= k -> ndigits n <= k.
Proof.
  intros H Hk. destruct (N.eq_dec n 0) as [->|Hn].
  - rewrite ndigits_small by lia. exact Hk.
  - pose proof (ndigits_bounds n Hn) as [L _].
    assert (pow10 (ndigits n - 1) < pow10 k)%N by lia.
    apply pow10_lt_inv in H0. lia.
Qed.

(** ** Decimals as rationals *)

Lemma Q10_pos e : (0 < Q10 e)%Q.
Proof. apply Qpower_0_lt. reflexivity. Qed.

Lemma Q10_add a b : (Q10 (a + b) == Q10 a * Q10 b)%Q.
Proof. apply Qpower_plus. discriminate. Qed.

Lemma Z_of_pow10 k : Z.of_N (pow10 k) = 10 ^ Z.max 0 k.
Proof.
  unfold pow10. rewrite N2Z.inj_pow. simpl Z.of_N at 1.
  f_equal. lia.
Qed.

Lemma inject_pow10 k : 0 <= k -> (inject_Z (Z.of_N (pow10 k)) == Q10 k)%Q.
Proof.
  intros H. rewrite Z_of_pow10. replace (Z.max 0 k) with k by lia.
  apply Zpower_Qpower, H.
Qed.

Lemma scaled_signed s c e e0 :
  scaled s c e e0 = signed s c * Z.of_N (pow10 (e - e0)).
Proof.
  unfold scaled, signed. rewrite N2Z.inj_mul. destruct s; lia.
Qed.

Lemma Qval_scaled s c e e0 :
  e0 <= e -> (Qval s c e == inject_Z (scaled s c e e0) * Q10 e0)%Q.
Proof.
  intros H. unfold Qval. rewrite scaled_signed, inject_Z_mult.
  rewrite inject_pow10 by lia.
  rewrite <- Qmult_assoc, <- Q10_add.
  replace (e - e0 + e0) with e by lia. reflexivity.
Qed.

Lemma Qval_lt_scaled s1 c1 e1 s2 c2 e2 e0 :
  e0 <= e1 -> e0 <= e2 ->
  (Qval s1 c1 e1 < Qval s2 c2 e2)%Q <-> scaled s1 c1 e1 e0 < scaled s2 c2 e2 e0.
Proof.
  intros H1 H2.
  rewrite (Qval_scaled s1 c1 e1 e0 H1), (Qval_scaled s2 c2 e2 e0 H2).
  rewrite Qmult_lt_r by apply Q10_pos.
  rewrite <- Zlt_Qlt. reflexivity.
Qed.

Lemma Qval_eq_scaled s1 c1 e1 s2 c2 e2 e0 :
  e0 <= e1 -> e0 <= e2 ->
  (Qval s1 c1 e1 == Qval s2 c2 e2)%Q <-> scaled s1 c1 e1 e0 = scaled s2 c2 e2 e0.
Proof.
  intros H1 H2.
  rewrite (Qval_scaled s1 c1 e1 e0 H1), (Qval_scaled s2 c2 e2 e0 H2).
  rewrite Qmult_inj_r.
  - apply inject_Z_injective.
  - intros E. pose proof (Q10_pos e0) as P. rewrite E in P.
    apply Qlt_irrefl in P. exact P.
Qed.

(** [Decimal._cmp] orders finite numbers as the rationals they denote. *)
Lemma dec_compare_Fin s1 c1 e1 s2 c2 e2 :
  exists c, dec_compare (Fin s1 c1 e1) (Fin s2 c2 e2) = Some c /\
    (c = Lt <-> (Qval s1 c1 e1 < Qval s2 c2 e2)%Q) /\
    (c = Gt <-> (Qval s2 c2 e2 < Qval s1 c1 e1)%Q) /\
    (c = Eq <-> (Qval s1 c1 e1 == Qval s2 c2 e2)%Q).
Proof.
  simpl. eexists. split; [reflexivity|].
  set (e0 := Z.min e1 e2).
  assert (H1 : e0 <= e1) by (unfold e0; lia).
  assert (H2 : e0 <= e2) by (unfold e0; lia).
  rewrite (Qval_lt_scaled s1 c1 e1 s2 c2 e2 e0 H1 H2).
  rewrite (Qval_lt_scaled s2 c2 e2 s1 c1 e1 e0 H2 H1).
  rewrite (Qval_eq_scaled s1 c1 e1 s2 c2 e2 e0 H1 H2).
  rewrite Z.compare_lt_iff, Z.compare_gt_iff, Z.compare_eq_iff.
  repeat split; intros H; exact H.
Qed.

Lemma MAX_Q_value : (Qval false 999999999999999999999999999999 (-18) == MAX_Q)%Q.
Proof. vm_compute. reflexivity. Qed.

Lemma MIN_Q_value : (Qval true 999999999999999999999999999999 (-18) == MIN_Q)%Q.
Proof. vm_compute. reflexivity. Qed.

Lemma dec_gt_MAX s c e :
  exists b, dec_gt (Fin s c e) MAX_VALUE = Return b /\
            (b = true <-> (MAX_Q < Qval s c e)%Q).
Proof.
  unfold dec_gt, dec_order, MAX_VALUE.
  destruct (dec_compare_Fin s c e false 999999999999999999999999999999 (-18))
    as (k & -> & _ & HGt & _).
  eexists. split; [reflexivity|].
  rewrite MAX_Q_value in HGt. rewrite <- HGt.
  destruct k; simpl; split; congruence.
Qed.

Lemma dec_lt_MIN s c e :
  exists b, dec_lt (Fin s c e) MIN_VALUE = Return b /\
            (b = true <-> (Qval s c e < MIN_Q)%Q).
Proof.
  unfold dec_lt, dec_order, MIN_VALUE.
  destruct (dec_compare_Fin s c e true 999999999999999999999999999999 (-18))
    as (k & -> & HLt & _ & _).
  eexists. split; [reflexivity|].
  rewrite MIN_Q_value in HLt. rewrite <- HLt.
  destruct k; simpl; split; congruence.
Qed.

(** ** Text *)

Lemma str_eqb_eq a : forall b, str_eqb a b = true <-> a = b.
Proof.
  induction a as [|x a IH]; intros [|y b]; simpl; split; intros H;
    try reflexivity; try discriminate.
  - apply andb_prop in H. destruct H as [H1 H2].
    apply Ascii.eqb_eq in H1. apply IH in H2. congruence.
  - injection H as -> ->. rewrite Ascii.eqb_refl. simpl. apply IH. reflexivity.
Qed.

Lemma str_eqb_neq a b : str_eqb a b = false <-> a <> b.
Proof.
  rewrite <- str_eqb_eq. destruct (str_eqb a b); split; congruence.
Qed.

Lemma literal_char_plain c : literal_char c = true -> plain_char c = true.
Proof.
  destruct c as [[] [] [] [] [] [] [] []]; vm_compute; congruence.
Qed.

Lemma is_digit_literal c : is_digit c = true -> literal_char c = true.
Proof. unfold literal_char. intros ->. reflexivity. Qed.

Lemma plain_not_space c : plain_char c = true -> is_space c = false.
Proof.
  unfold plain_char. intros H. apply andb_prop in H.
  destruct H as [H _]. apply negb_true_iff in H. exact H.
Qed.

Lemma lstrip_head c r : is_space c = false -> lstrip (c :: r) = c :: r.
Proof. intros H. simpl. rewrite H. reflexivity. Qed.

Lemma strip_ends s a t b u :
  s = a :: t -> rev s = b :: u ->
  is_space a = false -> is_space b = false -> strip s = s.
Proof.
  intros Hs Hr Ha Hb. unfold strip.
  rewrite Hs, (lstrip_head _ _ Ha), <- Hs, Hr, (lstrip_head _ _ Hb), <- Hr.
  apply rev_involutive.
Qed.

Lemma strip_no_space s : forallb (fun c => negb (is_space c)) s = true -> strip s = s.
Proof.
  intros H. destruct s as [|a t]; [reflexivity|].
  destruct (rev (a :: t)) as [|b u] eqn:Hr.
  - apply (f_equal (@List.length _)) in Hr. rewrite length_rev in Hr. discriminate.
  - assert (Hall : forall c, In c (a :: t) -> is_space c = false).
    { intros c Hc. rewrite forallb_forall in H. apply negb_true_iff, H, Hc. }
    eapply strip_ends; [reflexivity | exact Hr | |].
    + apply Hall. left. reflexivity.
    + apply Hall. apply in_rev. rewrite Hr. left. reflexivity.
Qed.

Lemma strip_plain s : forallb plain_char s = true -> strip s = s.
Proof.
  intros H. apply strip_no_space.
  rewrite forallb_forall in *. intros c Hc.
  apply negb_true_iff, plain_not_space, H, Hc.
Qed.

Lemma remove_underscores_plain s :
  forallb plain_char s = true -> remove_underscores s = s.
Proof.
  induction s as [|c s IH]; intros H; [reflexivity|].
  simpl in H. apply andb_prop in H. destruct H as [Hc Hs].
  unfold remove_underscores in *. simpl.
  unfold plain_char in Hc. apply andb_prop in Hc. destruct Hc as [_ Hu].
  rewrite Hu. f_equal. apply IH, Hs.
Qed.

Lemma forallb_literal_plain s :
  forallb literal_char s = true -> forallb plain_char s = true.
Proof.
  rewrite !forallb_forall. intros H c Hc. apply literal_char_plain, H, Hc.
Qed.

Lemma all_digits_literal s : all_digits s = true -> forallb literal_char s = true.
Proof.
  unfold all_digits. rewrite !forallb_forall. intros H c Hc.
  apply is_digit_literal, H, Hc.
Qed.

Lemma span_digits_app ds : forall rest,
  all_digits ds = true -> no_digit_head rest ->
  span_digits (ds ++ rest) = (ds, rest).
Proof.
  induction ds as [|c ds IH]; intros rest Hd Hr.
  - simpl. destruct rest as [|c r]; [reflexivity|].
    simpl in *. rewrite Hr. reflexivity.
  - simpl in Hd. apply andb_prop in Hd. destruct Hd as [Hc Hd].
    simpl. rewrite Hc, (IH rest Hd Hr). reflexivity.
Qed.

Lemma all_digits_zeros k : all_digits (zeros k) = true.
Proof.
  unfold zeros. induction (Z.to_nat k) as [|n IH]; [reflexivity|].
  simpl. exact IH.
Qed.

Lemma length_zeros k : 0 <= k -> Z.of_nat (List.length (zeros k)) = k.
Proof. intros H. unfold zeros. rewrite repeat_length. lia. Qed.

Lemma digits_val_zeros k s : digits_val (zeros k ++ s) = digits_val s.
Proof.
  unfold zeros, digits_val. induction (Z.to_nat k) as [|n IH]; [reflexivity|].
  simpl. exact IH.
Qed.

Lemma all_digits_app a b :
  all_digits (a ++ b) = all_digits a && all_digits b.
Proof. apply forallb_app. Qed.

(** [Decimal(text)] on a text free of white space and underscores. *)
Lemma Decimal_of_str_plain s :
  forallb plain_char s = true ->
  Decimal_of_str s =
    let (sign, r) := take_sign s in
    match parse_finite sign r with
    | Some d => Return d
    | None =>
        match parse_special sign r with
        | Some d => Return d
        | None => Raise (DecimalException ConversionSyntax)
        end
    end.
Proof.
  intros H. unfold Decimal_of_str.
  rewrite (strip_plain _ H), (remove_underscores_plain _ H). reflexivity.
Qed.

(** A literal with a point: integer digits, fractional digits, exponent. *)
Lemma parse_finite_point sign ip fp r2 x :
  all_digits ip = true -> all_digits fp = true -> ip ++ fp <> [] ->
  no_digit_head r2 -> parse_exponent r2 = Some x ->
  parse_finite sign (ip ++ "."%char :: fp ++ r2) =
    Some (Fin sign (digits_val (ip ++ fp)) (x - Z.of_nat (List.length fp))).
Proof.
  intros Hi Hf Hne Hr Hx. unfold parse_finite.
  rewrite (span_digits_app ip ("."%char :: fp ++ r2) Hi) by reflexivity.
  rewrite (span_digits_app fp r2 Hf Hr), Hx.
  destruct (ip ++ fp); [congruence | reflexivity].
Qed.

(** A literal without a point. *)
Lemma parse_finite_integer sign ip r2 x :
  all_digits ip = true -> ip <> [] ->
  match r2 with [] => True | c :: _ => is_digit c = false /\ c <> "."%char end ->
  parse_exponent r2 = Some x ->
  parse_finite sign (ip ++ r2) = Some (Fin sign (digits_val ip) x).
Proof.
  intros Hi Hne Hr Hx. unfold parse_finite.
  rewrite (span_digits_app ip r2 Hi).
  2:{ destruct r2; [exact I | apply Hr]. }
  cbv beta iota.
  match goal with
  | |- (let (_, _) := ?m in _) = _ => assert (E : m = ([], r2))
  end.
  { destruct r2 as [|c r]; [reflexivity|]. destruct Hr as [_ Hc].
    destruct (Ascii.eqb_spec c "."%char) as [->|_]; [congruence|].
    destruct c as [[] [] [] [] [] [] [] []]; try reflexivity; congruence. }
  rewrite E, app_nil_r, Hx.
  destruct ip; [congruence|]. f_equal. f_equal. simpl. lia.
Qed.

(** ** The constructor *)

Lemma Decimal_of_str_raises s e :
  Decimal_of_str s = Raise e -> e = DecimalException ConversionSyntax.
Proof.
  unfold Decimal_of_str. destruct (take_sign _) as [sign r].
  destruct (parse_finite sign r); [discriminate|].
  destruct (parse_special sign r); [discriminate|].
  intros H. injection H as <-. reflexivity.
Qed.

Lemma to_decimal_raises v e :
  to_decimal v = Raise e -> e = DecimalException ConversionSyntax.
Proof.
  destruct v; simpl; try apply Decimal_of_str_raises. discriminate.
Qed.

Lemma precision_quantum cur :
  Decimal_of_str (precision_str (precision cur)) = Return (quantum cur).
Proof.
  unfold precision_str, quantum, stored_exp.
  destruct (Z.gtb_spec (precision cur) 0) as [Hp|Hp]; [|reflexivity].
  assert (Hd : all_digits (zeros (precision cur)) = true) by apply all_digits_zeros.
  rewrite Decimal_of_str_plain.
  2:{ apply forallb_literal_plain. simpl. apply all_digits_literal, Hd. }
  change (lit "0." ++ zeros (precision cur))
    with ("0"%char :: "."%char :: zeros (precision cur)).
  cbn [take_sign].
  replace ("0"%char :: "."%char :: zeros (precision cur))
    with (["0"%char] ++ "."%char :: zeros (precision cur) ++ [])
    by (simpl; rewrite app_nil_r; reflexivity).
  rewrite (parse_finite_point false ["0"%char] (zeros (precision cur)) [] 0);
    try reflexivity; try exact Hd; try discriminate.
  rewrite length_zeros by lia.
  change (["0"%char] ++ zeros (precision cur)) with (zeros 1 ++ zeros (precision cur)).
  rewrite digits_val_zeros.
  rewrite <- (app_nil_r (zeros (precision cur))), digits_val_zeros.
  reflexivity.
Qed.

Lemma stored_exp_nonpos cur : stored_exp cur <= 0.
Proof. unfold stored_exp. destruct (Z.gtb_spec (precision cur) 0); lia. Qed.

Lemma rescale_Fin s c e e' :
  rescale (Fin s c e) e' = Fin s (rescale_coeff c e e') e'.
Proof.
  unfold rescale, rescale_coeff.
  destruct (c =? 0)%N; [reflexivity|]. destruct (e' <=? e); reflexivity.
Qed.

(** [_fix] leaves alone what the context can hold. *)
Lemma fix_ctx_id s c e :
  Etiny <= e -> e + ndigits c - 1 <= Emax -> ndigits c <= prec ->
  fix_ctx (Fin s c e) = Return (Fin s c e).
Proof.
  intros H1 H2 H3. unfold fix_ctx.
  destruct (N.eqb_spec c 0) as [->|Hc].
  - rewrite ndigits_small in H2 by lia.
    replace (Z.min (Z.max e Etiny) Emax) with e by lia. reflexivity.
  - destruct (Z.gtb_spec (ndigits c + e - prec) Etop) as [G|G].
    { unfold Etop in G. lia. }
    destruct (Z.ltb_spec (ndigits c + e - prec) Etiny) as [L|L].
    + destruct (Z.ltb_spec e Etiny); [lia | reflexivity].
    + destruct (Z.ltb_spec e (ndigits c + e - prec)); [lia | reflexivity].
Qed.

(** What a successful [quantize] returned. *)
Lemma quantize_returns s c e qs qc qe r :
  quantize (Fin s c e) (Fin qs qc qe) = Return r ->
  r = Fin s (rescale_coeff c e qe) qe /\
  Etiny <= qe <= Emax /\ ndigits (rescale_coeff c e qe) <= prec.
Proof.
  unfold quantize, check_nans.
  destruct ((Etiny <=? qe) && (qe <=? Emax)) eqn:Hq; cbn [negb]; [|discriminate].
  apply andb_prop in Hq. destruct Hq as [Q1 Q2].
  apply Z.leb_le in Q1. apply Z.leb_le in Q2.
  destruct (c =? 0)%N eqn:Hc.
  - apply N.eqb_eq in Hc. subst c.
    unfold fix_ctx. simpl. intros H. injection H as <-.
    replace (Z.min (Z.max qe Etiny) Emax) with qe by lia.
    unfold rescale_coeff. simpl.
    rewrite ndigits_small by reflexivity. unfold prec. repeat split; lia.
  - destruct (e + ndigits c - 1 >? Emax); [discriminate|].
    destruct (e + ndigits c - 1 - qe + 1 >? prec); [discriminate|].
    rewrite rescale_Fin.
    destruct (Z.gtb_spec (qe + ndigits (rescale_coeff c e qe) - 1) Emax) as [G|G];
      [discriminate|].
    destruct (Z.gtb_spec (ndigits (rescale_coeff c e qe)) prec) as [P|P];
      [discriminate|].
    rewrite fix_ctx_id by lia.
    intros H. injection H as <-. repeat split; lia.
Qed.

(** When [quantize] succeeds. *)
Lemma quantize_ok s c e qs qc qe :
  Etiny <= qe <= 0 ->
  (c <> 0%N -> e + ndigits c - 1 <= Emax /\ e + ndigits c - qe <= prec) ->
  ndigits (rescale_coeff c e qe) <= prec ->
  quantize (Fin s c e) (Fin qs qc qe) = Return (Fin s (rescale_coeff c e qe) qe).
Proof.
  intros Hq Hc Hn. unfold quantize, check_nans.
  assert (Q : (Etiny <=? qe) && (qe <=? Emax) = true).
  { apply andb_true_intro. unfold Emax.
    split; apply Z.leb_le; lia. }
  rewrite Q. cbn [negb].
  pose proof (ndigits_pos (rescale_coeff c e qe)) as Hpos.
  destruct (c =? 0)%N eqn:Hc0.
  - apply N.eqb_eq in Hc0. subst c. unfold rescale_coeff.
    change (0 =? 0)%N with true. cbv iota.
    apply fix_ctx_id; rewrite ?ndigits_small by reflexivity;
      unfold Emax, prec; lia.
  - apply N.eqb_neq in Hc0. destruct (Hc Hc0) as [Hc1 Hc2].
    destruct (Z.gtb_spec (e + ndigits c - 1) Emax) as [G|G]; [lia|].
    destruct (Z.gtb_spec (e + ndigits c - 1 - qe + 1) prec) as [G'|G']; [lia|].
    rewrite rescale_Fin.
    destruct (Z.gtb_spec (qe + ndigits (rescale_coeff c e qe) - 1) Emax) as [G2|G2];
      [unfold Emax, prec in *; lia|].
    destruct (Z.gtb_spec (ndigits (rescale_coeff c e qe)) prec) as [P|P]; [lia|].
    apply fix_ctx_id; unfold Emax, prec in *; lia.
Qed.

Lemma Money_init_unfold v cur :
  __init__ v cur =
    (d <- to_decimal v ;;
     above <- dec_gt d MAX_VALUE ;;
     if above : bool then Raise (ValueError AboveMaximum) else
     below <- dec_lt d MIN_VALUE ;;
     if below : bool then Raise (ValueError BelowMinimum) else
     rounded <- quantize d (quantum cur) ;;
     Return {| value := rounded; currency := cur |}).
Proof.
  unfold __init__. rewrite precision_quantum.
  change (match v with
          | VDecimal d => Return d
          | _ => Decimal_of_str (py_str v)
          end) with (to_decimal v).
  destruct (to_decimal v) as [d|e] eqn:Hv; [reflexivity|].
  apply to_decimal_raises in Hv. subst e. reflexivity.
Qed.

Lemma Money_init_above v cur s c e :
  to_decimal v = Return (Fin s c e) -> (MAX_Q < Qval s c e)%Q ->
  __init__ v cur = Raise (ValueError AboveMaximum).
Proof.
  intros Hv H. rewrite Money_init_unfold, Hv. cbn [bind].
  destruct (dec_gt_MAX s c e) as (b & -> & Hb).
  apply Hb in H. subst b. reflexivity.
Qed.

Lemma Money_init_below v cur s c e :
  to_decimal v = Return (Fin s c e) -> (Qval s c e < MIN_Q)%Q ->
  __init__ v cur = Raise (ValueError BelowMinimum).
Proof.
  intros Hv H. rewrite Money_init_unfold, Hv. cbn [bind].
  destruct (dec_gt_MAX s c e) as (b & -> & Hb).
  destruct b.
  - exfalso. assert (G : (MAX_Q < Qval s c e)%Q) by (apply Hb; reflexivity).
    apply (Qlt_irrefl MAX_Q). eapply Qlt_trans; [exact G|].
    eapply Qlt_trans; [exact H|]. reflexivity.
  - cbn [bind]. destruct (dec_lt_MIN s c e) as (b & -> & Hb').
    apply Hb' in H. subst b. reflexivity.
Qed.

Lemma Money_init_in_range v cur s c e :
  to_decimal v = Return (Fin s c e) -> in_range (Fin s c e) ->
  __init__ v cur =
    (rounded <- quantize (Fin s c e) (quantum cur) ;;
     Return {| value := rounded; currency := cur |}).
Proof.
  intros Hv [Hlo Hhi]. rewrite Money_init_unfold, Hv. cbn [bind].
  destruct (dec_gt_MAX s c e) as (b & -> & Hb).
  destruct b.
  { exfalso. apply (Qle_not_lt _ _ Hhi), Hb. reflexivity. }
  cbn [bind]. destruct (dec_lt_MIN s c e) as (b & -> & Hb').
  destruct b.
  { exfalso. apply (Qle_not_lt _ _ Hlo), Hb'. reflexivity. }
  reflexivity.
Qed.

(** The constructor returns only for a finite number within the range, and
    then with the quantized number. *)
Lemma Money_init_returns v cur m :
  __init__ v cur = Return m ->
  exists s c e,
    to_decimal v = Return (Fin s c e) /\ in_range (Fin s c e) /\
    m = {| value := Fin s (rescale_coeff c e (stored_exp cur)) (stored_exp cur);
           currency := cur |} /\
    Etiny <= stored_exp cur /\
    ndigits (rescale_coeff c e (stored_exp cur)) <= prec.
Proof.
  rewrite Money_init_unfold. intros H.
  apply bind_Return_inv in H. destruct H as (d & Hv & H).
  destruct d as [s c e|s|g].
  - exists s, c, e. split; [exact Hv|].
    destruct (dec_gt_MAX s c e) as (b & Eb & Hb). rewrite Eb in H. cbn [bind] in H.
    destruct b; [discriminate|].
    destruct (dec_lt_MIN s c e) as (b & Eb' & Hb'). rewrite Eb' in H. cbn [bind] in H.
    destruct b; [discriminate|].
    apply bind_Return_inv in H. destruct H as (r & Hq & H).
    injection H as <-.
    apply quantize_returns in Hq. destruct Hq as (-> & Hq & Hn).
    split; [|split; [reflexivity | split; [lia | exact Hn]]].
    split; apply Qnot_lt_le; intros L.
    + apply Hb' in L. discriminate.
    + apply Hb in L. discriminate.
  - destruct s; discriminate.
  - discriminate.
Qed.

(** ** Magnitude and rounding *)

Lemma Qval_diff s1 c1 e1 s2 c2 e2 e0 :
  e0 <= e1 -> e0 <= e2 ->
  (Qval s1 c1 e1 - Qval s2 c2 e2 ==
   inject_Z (scaled s1 c1 e1 e0 - scaled s2 c2 e2 e0) * Q10 e0)%Q.
Proof.
  intros H1 H2.
  rewrite (Qval_scaled s1 c1 e1 e0 H1), (Qval_scaled s2 c2 e2 e0 H2).
  unfold Z.sub. rewrite inject_Z_plus, inject_Z_opp. ring.
Qed.

Lemma Qabs_scaled z e0 : (Qabs (inject_Z z * Q10 e0) == inject_Z (Z.abs z) * Q10 e0)%Q.
Proof.
  rewrite Qabs_Qmult.
  rewrite (Qabs_pos (Q10 e0)) by (apply Qlt_le_weak, Q10_pos).
  reflexivity.
Qed.

Lemma half_Q10 k e0 :
  e0 <= k -> ((1 # 2) * Q10 k == (1 # 2) * inject_Z (Z.of_N (pow10 (k - e0))) * Q10 e0)%Q.
Proof.
  intros H. rewrite inject_pow10 by lia.
  rewrite <- Qmult_assoc, <- Q10_add.
  replace (k - e0 + e0) with k by lia. reflexivity.
Qed.

(** The distance of two finite numbers against half a unit of [10^k], in
    integers at a common exponent. *)
Lemma Qval_dist_le s1 c1 e1 s2 c2 e2 e0 k :
  e0 <= e1 -> e0 <= e2 -> e0 <= k ->
  (Qabs (Qval s1 c1 e1 - Qval s2 c2 e2) <= (1 # 2) * Q10 k)%Q <->
  2 * Z.abs (scaled s1 c1 e1 e0 - scaled s2 c2 e2 e0) <= Z.of_N (pow10 (k - e0)).
Proof.
  intros H1 H2 H3.
  rewrite (Qval_diff s1 c1 e1 s2 c2 e2 e0 H1 H2), Qabs_scaled, (half_Q10 k e0 H3).
  rewrite Qmult_le_r by apply Q10_pos.
  unfold Qle, Qmult, inject_Z. cbn [Qnum Qden]. lia.
Qed.

Lemma Qval_dist_eq s1 c1 e1 s2 c2 e2 e0 k :
  e0 <= e1 -> e0 <= e2 -> e0 <= k ->
  (Qabs (Qval s1 c1 e1 - Qval s2 c2 e2) == (1 # 2) * Q10 k)%Q <->
  2 * Z.abs (scaled s1 c1 e1 e0 - scaled s2 c2 e2 e0) = Z.of_N (pow10 (k - e0)).
Proof.
  intros H1 H2 H3.
  rewrite (Qval_diff s1 c1 e1 s2 c2 e2 e0 H1 H2), Qabs_scaled, (half_Q10 k e0 H3).
  rewrite Qmult_inj_r.
  - unfold Qeq, Qmult, inject_Z. cbn [Qnum Qden]. lia.
  - intros E. pose proof (Q10_pos e0) as P. rewrite E in P.
    apply Qlt_irrefl in P. exact P.
Qed.

Lemma Qval_neg c e : (Qval true c e == - Qval false c e)%Q.
Proof.
  unfold Qval, signed. rewrite inject_Z_opp. ring.
Qed.

Lemma Qval_nonneg c e : (0 <= Qval false c e)%Q.
Proof.
  unfold Qval, signed. apply Qmult_le_0_compat.
  - change 0%Q with (inject_Z 0). rewrite <- Zle_Qle. lia.
  - apply Qlt_le_weak, Q10_pos.
Qed.

(** A number below [10^k] in magnitude has at most [k] digits before the
    point. *)
Lemma digits_of_bound c e k :
  c <> 0%N -> (Qval false c e < Q10 k)%Q -> e + ndigits c <= k.
Proof.
  intros Hc H.
  assert (E : (Q10 k == Qval false 1 k)%Q).
  { unfold Qval, signed. simpl. ring. }
  rewrite E in H.
  set (e0 := Z.min e k).
  apply (Qval_lt_scaled false c e false 1 k e0) in H; try (unfold e0; lia).
  unfold scaled in H.
  pose proof (ndigits_bounds c Hc) as [L _].
  pose proof (ndigits_pos c) as P.
  assert (A : (pow10 (ndigits c - 1 + (e - e0)) < pow10 (k - e0))%N).
  { rewrite pow10_add by (unfold e0; lia).
    assert (pow10 (ndigits c - 1) * pow10 (e - e0) <= c * pow10 (e - e0))%N
      by (apply N.mul_le_mono_r; exact L).
    lia. }
  apply pow10_lt_inv in A. lia.
Qed.

Lemma MAX_Q_lt : (MAX_Q < Q10 12)%Q.
Proof. reflexivity. Qed.

Lemma in_range_abs s c e :
  in_range (Fin s c e) <-> (Qval false c e <= MAX_Q)%Q.
Proof.
  simpl. pose proof (Qval_nonneg c e) as P.
  assert (M : (MIN_Q == - MAX_Q)%Q) by reflexivity.
  assert (Z0 : (MIN_Q <= 0)%Q) by discriminate.
  assert (Z1 : (0 <= MAX_Q)%Q) by discriminate.
  destruct s.
  - rewrite Qval_neg, M. split.
    + intros [H _]. apply Qopp_le_compat in H. rewrite !Qopp_involutive in H. exact H.
    + intros H. split.
      * apply Qopp_le_compat. exact H.
      * apply Qle_trans with 0%Q; [|exact Z1].
        apply (Qopp_le_compat 0) in P. exact P.
  - split.
    + intros [_ H]. exact H.
    + intros H. split; [|exact H]. apply Qle_trans with 0%Q; assumption.
Qed.

Lemma in_range_digits s c e :
  in_range (Fin s c e) -> c <> 0%N -> e + ndigits c <= 12.
Proof.
  intros H Hc. apply in_range_abs in H.
  apply digits_of_bound; [exact Hc|].
  eapply Qle_lt_trans; [exact H | exact MAX_Q_lt].
Qed.

Lemma div_half_even_le c m : (div_half_even c m <= c / m + 1)%N.
Proof. unfold div_half_even. destruct (rounds_up c m); lia. Qed.

Lemma rescale_coeff_le c e qe k :
  (c <> 0%N -> e + ndigits c <= k) -> qe <= k ->
  (rescale_coeff c e qe <= pow10 (k - qe))%N.
Proof.
  intros Hc Hk. unfold rescale_coeff.
  destruct (N.eqb_spec c 0) as [->|Hc0]; [lia|].
  specialize (Hc Hc0).
  pose proof (ndigits_upper c) as U. pose proof (ndigits_pos c) as P.
  destruct (Z.leb_spec qe e) as [L|L].
  - assert (A : (c * pow10 (e - qe) < pow10 (ndigits c) * pow10 (e - qe))%N).
    { apply N.mul_lt_mono_pos_r; [apply pow10_pos | exact U]. }
    rewrite <- pow10_add in A by lia.
    pose proof (pow10_le (ndigits c + (e - qe)) (k - qe) ltac:(lia)). lia.
  - pose proof (div_half_even_le c (pow10 (qe - e))) as D.
    assert (A : (c / pow10 (qe - e) < pow10 (k - qe))%N).
    { apply N.Div0.div_lt_upper_bound.
      rewrite <- pow10_add by lia.
      pose proof (pow10_le (ndigits c) (qe - e + (k - qe)) ltac:(lia)). lia. }
    lia.
Qed.

Lemma rescale_coeff_digits c e qe k :
  (c <> 0%N -> e + ndigits c <= k) -> qe <= k ->
  ndigits (rescale_coeff c e qe) <= k - qe + 1.
Proof.
  intros Hc Hk. apply ndigits_le; [|lia].
  pose proof (rescale_coeff_le c e qe k Hc Hk) as L.
  pose proof (pow10_lt (k - qe) (k - qe + 1) ltac:(lia) ltac:(lia)). lia.
Qed.

(** [ROUND_HALF_EVEN]: the rounded quotient is a nearest integer, and the
    even one when two are equally near. *)
Lemma div_half_even_spec c m :
  m <> 0%N ->
  2 * Z.abs (Z.of_N c - Z.of_N (div_half_even c m) * Z.of_N m) <= Z.of_N m /\
  (2 * Z.abs (Z.of_N c - Z.of_N (div_half_even c m) * Z.of_N m) = Z.of_N m ->
   N.even (div_half_even c m) = true).
Proof.
  intros Hm. unfold div_half_even, rounds_up.
  pose proof (N.div_mod c m Hm) as E.
  pose proof (N.mod_lt c m Hm) as R.
  set (q := (c / m)%N) in *. set (r := (c mod m)%N) in *.
  assert (Ez : Z.of_N c = Z.of_N m * Z.of_N q + Z.of_N r) by lia.
  clearbody q r.
  destruct (N.compare_spec (2 * r) m) as [T|T|T].
  - destruct (N.odd q) eqn:O.
    + split; [nia|]. intros _.
      rewrite N.add_1_r, N.even_succ. exact O.
    + split; [nia|]. intros _.
      rewrite <- N.negb_odd, O. reflexivity.
  - split; [nia|]. intros H. exfalso. nia.
  - split; [nia|]. intros H. exfalso. nia.
Qed.

Lemma rescale_half_even_scaled s c e qe :
  let c' := rescale_coeff c e qe in
  let e0 := Z.min e qe in
  2 * Z.abs (scaled s c e e0 - scaled s c' qe e0) <= Z.of_N (pow10 (qe - e0)) /\
  (2 * Z.abs (scaled s c e e0 - scaled s c' qe e0) = Z.of_N (pow10 (qe - e0)) ->
   N.even c' = true).
Proof.
  intros c' e0. subst c' e0. unfold rescale_coeff.
  pose proof (pow10_pos (qe - Z.min e qe)) as P.
  destruct (N.eqb_spec c 0) as [->|Hc].
  - rewrite !scaled_signed. unfold signed. destruct s; simpl; split; lia.
  - destruct (Z.leb_spec qe e) as [L|L].
    + replace (Z.min e qe) with qe in * by lia.
      rewrite !scaled_signed. replace (qe - qe) with 0 in * by lia.
      rewrite pow10_0 in *. unfold signed.
      destruct s; split; lia.
    + replace (Z.min e qe) with e in * by lia.
      rewrite !scaled_signed. replace (e - e) with 0 by lia.
      rewrite pow10_0.
      pose proof (div_half_even_spec c (pow10 (qe - e)) ltac:(lia)) as [A B].
      set (q := div_half_even c (pow10 (qe - e))) in *.
      set (m := pow10 (qe - e)) in *. clearbody q m.
      unfold signed. destruct s.
      * replace (- Z.of_N c * Z.of_N 1 - - Z.of_N q * Z.of_N m)
          with (- (Z.of_N c - Z.of_N q * Z.of_N m)) by lia.
        rewrite Z.abs_opp. split; assumption.
      * replace (Z.of_N c * Z.of_N 1 - Z.of_N q * Z.of_N m)
          with (Z.of_N c - Z.of_N q * Z.of_N m) by lia.
        split; assumption.
Qed.

(** Quantizing moves a number by at most half a unit of the new last place,
    and to an even coefficient when it moves by exactly half. *)
Lemma rescale_rounds s c e qe :
  let c' := rescale_coeff c e qe in
  (Qabs (Qval s c e - Qval s c' qe) <= (1 # 2) * Q10 qe)%Q /\
  ((Qabs (Qval s c e - Qval s c' qe) == (1 # 2) * Q10 qe)%Q -> N.even c' = true).
Proof.
  intros c'.
  pose proof (rescale_half_even_scaled s c e qe) as [A B]. fold c' in A, B.
  assert (H1 : Z.min e qe <= e) by lia.
  assert (H2 : Z.min e qe <= qe) by lia.
  split.
  - apply (Qval_dist_le s c e s c' qe (Z.min e qe) qe H1 H2 H2). exact A.
  - intros H. apply B.
    apply (Qval_dist_eq s c e s c' qe (Z.min e qe) qe H1 H2 H2). exact H.
Qed.

(** The constructor on a finite number within the range, for a precision
    that leaves the coefficient within the 28 digits of the context. *)
Lemma Money_init_quantizes v cur s c e :
  0 <= precision cur <= 15 ->
  to_decimal v = Return (Fin s c e) -> in_range (Fin s c e) ->
  __init__ v cur =
    Return {| value := Fin s (rescale_coeff c e (- precision cur)) (- precision cur);
              currency := cur |}.
Proof.
  intros Hp Hv Hr.
  rewrite (Money_init_in_range v cur s c e Hv Hr).
  assert (Hs : stored_exp cur = - precision cur).
  { unfold stored_exp. destruct (Z.gtb_spec (precision cur) 0); lia. }
  unfold quantum. rewrite Hs.
  pose proof (in_range_digits s c e Hr) as D.
  rewrite quantize_ok; [reflexivity | unfold Etiny, Emin, prec; lia | | ].
  - intros Hc. specialize (D Hc). unfold Emax, prec. lia.
  - pose proof (rescale_coeff_digits c e (- precision cur) 12 D ltac:(lia)).
    unfold prec. lia.
Qed.

Lemma fix_ctx_raises d e :
  fix_ctx d = Raise e -> e = DecimalException Overflow.
Proof.
  unfold fix_ctx. destruct d as [s c x| |]; try discriminate.
  destruct (c =? 0)%N; [discriminate|].
  destruct (ndigits c + x - prec >? Etop); [congruence|].
  match goal with |- context [if ?b then _ else Return _] => destruct b end;
    [|discriminate].
  match goal with |- context [if ?b then Raise _ else _] => destruct b end;
    [congruence | discriminate].
Qed.

Lemma quantize_raises a b e :
  quantize a b = Raise e -> exists sg, e = DecimalException sg.
Proof.
  unfold quantize, check_nans.
  destruct a as [s c x|s|[|]], b as [s' c' x'|s'|[|]];
    try discriminate; try (intros H; injection H as <-; eexists; reflexivity).
  repeat match goal with
         | |- context [if ?b then _ else _] => destruct b
         | |- context [match rescale ?d ?q with _ => _ end] => destruct (rescale d q)
         end;
    try discriminate;
    try (intros H; injection H as <-; eexists; reflexivity);
    try (intros H; apply fix_ctx_raises in H; subst e; eexists; reflexivity).
Qed.

(** ** C1: quantization at construction *)

Example construct_1_005 :
  __init__ (VStr (lit "1.005")) USD =
    Return {| value := Fin false 100 (-2); currency := USD |}.
Proof. vm_compute. reflexivity. Qed.

(** The constructor does not return for every valid value and every
    non-negative precision: [MAX_VALUE] at precision 16 rounds to a
    coefficient of 29 digits, one more than the context holds. *)
Lemma construct_quantizes_counterexample :
  ~ (forall (v : PyValue) (cur : Currency) (s : bool) (c : N) (e : Z),
       0 <= precision cur ->
       to_decimal v = Return (Fin s c e) -> in_range (Fin s c e) ->
       exists m, __init__ v cur = Return m).
Proof.
  intros H.
  destruct (H (VDecimal MAX_VALUE) X16 false
              999999999999999999999999999999%N (-18)) as [m Hm].
  - simpl. lia.
  - reflexivity.
  - split; vm_compute; discriminate.
  - vm_compute in Hm. discriminate.
Qed.

(** C1 (the code departs from it): for values within
    [[MIN_VALUE, MAX_VALUE]] nothing is stored when the quantized coefficient
    needs more than the 28 digits of the context: [quantize] signals
    [InvalidOperation], which [__init__] lets escape.  So for [MAX_VALUE] at
    precision 16 (29 digits after rounding) and for 100000000000 at precision
    18 (30 digits), while 9999999999 at precision 18 is stored with its 18
    fractional digits. *)
Theorem construct_quantize_leaks :
  in_range MAX_VALUE /\
  __init__ (VDecimal MAX_VALUE) X16 = Raise (DecimalException InvalidOperation) /\
  in_range (Fin false 100000000000 0) /\
  __init__ (VInt 100000000000) ETH = Raise (DecimalException InvalidOperation) /\
  kind_of (DecimalException InvalidOperation) = None /\
  __init__ (VInt 9999999999) ETH =
    Return {| value := Fin false 9999999999000000000000000000 (-18);
              currency := ETH |}.
Proof.
  split; [split; vm_compute; discriminate|].
  split; [vm_compute; reflexivity|].
  split; [split; vm_compute; discriminate|].
  repeat split; vm_compute; reflexivity.
Qed.

(** X19: whenever the constructor stores an amount for a currency of
    precision [p >= 0], the amount is the input quantized to exactly [p]
    fractional digits (exponent [-p]) with round-half-to-even: the stored
    number is within half a unit of the last place of the input, with an even
    coefficient when it is exactly half a unit away.  For every input that
    converts to a finite decimal within the range and every precision
    [0 <= p <= 15] the constructor does store an amount.  The exact decimal
    1.005 at precision 2 is stored as 1.00. *)
Theorem construct_quantizes_half_even :
  (forall (v : PyValue) (cur : Currency) (m : Money),
      0 <= precision cur -> __init__ v cur = Return m ->
      exists s c e c',
        to_decimal v = Return (Fin s c e) /\ in_range (Fin s c e) /\
        m = {| value := Fin s c' (- precision cur); currency := cur |} /\
        (Qabs (Qval s c e - Qval s c' (- precision cur))
           <= (1 # 2) * Q10 (- precision cur))%Q /\
        ((Qabs (Qval s c e - Qval s c' (- precision cur))
            == (1 # 2) * Q10 (- precision cur))%Q -> N.even c' = true)) /\
  (forall (v : PyValue) (cur : Currency) (s : bool) (c : N) (e : Z),
      0 <= precision cur <= 15 ->
      to_decimal v = Return (Fin s c e) -> in_range (Fin s c e) ->
      exists c',
        __init__ v cur =
          Return {| value := Fin s c' (- precision cur); currency := cur |} /\
        (Qabs (Qval s c e - Qval s c' (- precision cur))
           <= (1 # 2) * Q10 (- precision cur))%Q /\
        ((Qabs (Qval s c e - Qval s c' (- precision cur))
            == (1 # 2) * Q10 (- precision cur))%Q -> N.even c' = true)) /\
  __init__ (VDecimal (Fin false 1005 (-3))) USD =
    Return {| value := Fin false 100 (-2); currency := USD |}.
Proof.
  split; [|split].
  - intros v cur m Hp Hm.
    apply Money_init_returns in Hm.
    destruct Hm as (s & c & e & Hv & Hr & -> & _ & _).
    assert (Hs : stored_exp cur = - precision cur).
    { unfold stored_exp. destruct (Z.gtb_spec (precision cur) 0); lia. }
    rewrite Hs.
    exists s, c, e, (rescale_coeff c e (- precision cur)).
    split; [exact Hv|]. split; [exact Hr|]. split; [reflexivity|].
    apply rescale_rounds.
  - intros v cur s c e Hp Hv Hr.
    exists (rescale_coeff c e (- precision cur)).
    split; [apply Money_init_quantizes; assumption|].
    apply rescale_rounds.
  - vm_compute. reflexivity.
Qed.

Lemma construct_quantizes_half_even_witness :
  exists c',
    __init__ (VStr (lit "1.015")) USD =
      Return {| value := Fin false c' (-2); currency := USD |} /\
    (Qabs (Qval false 1015 (-3) - Qval false c' (-2)) <= (1 # 2) * Q10 (-2))%Q /\
    ((Qabs (Qval false 1015 (-3) - Qval false c' (-2)) == (1 # 2) * Q10 (-2))%Q ->
     N.even c' = true).
Proof.
  apply (proj1 (proj2 construct_quantizes_half_even)
           (VStr (lit "1.015")) USD false 1015%N (-3)).
  - simpl. lia.
  - vm_compute. reflexivity.
  - split; vm_compute; discriminate.
Defined.

(** ** C2: the range check *)

Lemma MAX_VALUE_literal :
  Decimal_of_str (lit "999999999999.999999999999999999") = Return MAX_VALUE /\
  Decimal_of_str (lit "-999999999999.999999999999999999") = Return MIN_VALUE.
Proof. split; vm_compute; reflexivity. Qed.

Lemma Money_init_range_error v cur d :
  to_decimal v = Return d ->
  (exists e, __init__ v cur = Raise e /\ kind_of e = Some RangeKind) <->
  outside_range d.
Proof.
  intros Hv. split.
  - intros (x & Hx & Hk). destruct d as [s c e|s|g]; simpl; [|exact I|].
    + destruct (Qlt_le_dec MAX_Q (Qval s c e)) as [A|A]; [left; exact A|].
      destruct (Qlt_le_dec (Qval s c e) MIN_Q) as [B|B]; [right; exact B|].
      exfalso.
      rewrite (Money_init_in_range v cur s c e Hv (conj B A)) in Hx.
      destruct (quantize (Fin s c e) (quantum cur)) as [r|x'] eqn:Q;
        [discriminate|].
      apply quantize_raises in Q. destruct Q as [sg ->].
      simpl in Hx. injection Hx as <-. discriminate.
    + rewrite Money_init_unfold, Hv in Hx. simpl in Hx.
      injection Hx as <-. discriminate.
  - intros H. destruct d as [s c e|s|g]; simpl in H.
    + destruct H as [H|H].
      * exists (ValueError AboveMaximum). split; [|reflexivity].
        apply (Money_init_above v cur s c e Hv H).
      * exists (ValueError BelowMinimum). split; [|reflexivity].
        apply (Money_init_below v cur s c e Hv H).
    + rewrite Money_init_unfold, Hv. destruct s.
      * exists (ValueError BelowMinimum). split; reflexivity.
      * exists (ValueError AboveMaximum). split; reflexivity.
    + contradiction.
Qed.

Lemma Money_init_MAX_VALUE cur :
  0 <= precision cur <= 15 ->
  __init__ (VDecimal MAX_VALUE) cur =
    Return {| value := Fin false (pow10 (12 + precision cur)) (- precision cur);
              currency := cur |}.
Proof.
  intros Hp. unfold MAX_VALUE.
  rewrite (Money_init_quantizes
             (VDecimal (Fin false 999999999999999999999999999999 (-18)))
             cur false 999999999999999999999999999999 (-18) Hp eq_refl).
  2:{ split; vm_compute; discriminate. }
  do 3 f_equal.
  destruct cur as [cd p]. simpl in *.
  assert (C : p = 0 \/ p = 1 \/ p = 2 \/ p = 3 \/ p = 4 \/ p = 5 \/ p = 6 \/ p = 7 \/
              p = 8 \/ p = 9 \/ p = 10 \/ p = 11 \/ p = 12 \/ p = 13 \/ p = 14 \/
              p = 15) by lia.
  repeat (destruct C as [->|C]; [vm_compute; reflexivity|]).
  subst p. vm_compute. reflexivity.
Qed.

(** [MAX_VALUE] is not accepted for every currency of non-negative
    precision: not at precision 16. *)
Lemma range_check_counterexample :
  ~ (forall cur : Currency, 0 <= precision cur ->
       exists m, __init__ (VDecimal MAX_VALUE) cur = Return m).
Proof.
  intros H. destruct (H X16) as [m Hm].
  - simpl. lia.
  - vm_compute in Hm. discriminate.
Qed.

(** C2 (the code departs from it): [MAX_VALUE] passes the range check for
    every currency, and is stored for USD (as 1000000000000.00), but for a
    currency of precision 16 or 18 the quantization that follows the check
    signals [InvalidOperation] and the construction fails, with an error that
    is no range error. *)
Theorem construct_MAX_VALUE_leaks :
  dec_gt MAX_VALUE MAX_VALUE = Return false /\
  dec_lt MAX_VALUE MIN_VALUE = Return false /\
  __init__ (VDecimal MAX_VALUE) USD =
    Return {| value := Fin false 100000000000000 (-2); currency := USD |} /\
  __init__ (VStr (lit "999999999999.999999999999999999")) X16 =
    Raise (DecimalException InvalidOperation) /\
  __init__ (VStr (lit "999999999999.999999999999999999")) ETH =
    Raise (DecimalException InvalidOperation) /\
  kind_of (DecimalException InvalidOperation) <> Some RangeKind.
Proof.
  repeat split; try (vm_compute; reflexivity). discriminate.
Qed.

(** X20: the constructor fails with a range error exactly when the
    unrounded decimal lies outside [[MIN_VALUE, MAX_VALUE]], whatever the
    currency; [MAX_VALUE] itself is accepted for every currency with
    precision [0 <= p <= 15] (and stored as 1000000000000 with [p] zero
    fractional digits, the check coming before the rounding); [MAX_VALUE]
    plus one unit of its last place is rejected with a range error. *)
Theorem range_check_before_quantize :
  (forall (v : PyValue) (cur : Currency) (d : Decimal),
      to_decimal v = Return d ->
      ((exists e, __init__ v cur = Raise e /\ kind_of e = Some RangeKind) <->
       outside_range d)) /\
  (forall cur : Currency,
      0 <= precision cur <= 15 ->
      __init__ (VDecimal MAX_VALUE) cur =
        Return {| value := Fin false (pow10 (12 + precision cur)) (- precision cur);
                  currency := cur |}) /\
  (forall cur : Currency,
      __init__ (VDecimal (Fin false 1000000000000000000000000000000 (-18))) cur =
        Raise (ValueError AboveMaximum)).
Proof.
  split; [exact Money_init_range_error|].
  split; [exact Money_init_MAX_VALUE|].
  intros cur.
  apply (Money_init_above
           (VDecimal (Fin false 1000000000000000000000000000000 (-18)))
           cur false _ (-18) eq_refl).
  vm_compute. reflexivity.
Qed.

Lemma range_check_before_quantize_witness :
  (exists e, __init__ (VStr (lit "1000000000000")) USD = Raise e /\
             kind_of e = Some RangeKind) <->
  outside_range (Fin false 1000000000000 0).
Proof.
  apply (proj1 range_check_before_quantize (VStr (lit "1000000000000")) USD).
  vm_compute. reflexivity.
Defined.

(** ** C4: values that are not decimal literals *)

(** The handler of [Money.__init__] never fires: [Decimal(text)] signals
    [ConversionSyntax], which is neither a [ValueError] nor a [TypeError]. *)
Lemma Money_init_unparsable v cur e :
  to_decimal v = Raise e ->
  __init__ v cur = Raise (DecimalException ConversionSyntax).
Proof.
  intros H. rewrite Money_init_unfold.
  rewrite H, (to_decimal_raises v e H). reflexivity.
Qed.

(** C4 (the code departs from it): constructing from the text [abc] raises
    the decimal module's [InvalidOperation] (conversion syntax), which is not
    a [ValueError]; [from_str], for the same text, catches it and raises its
    [ValueError]. *)
Theorem construct_unparsable_escapes :
  __init__ (VStr (lit "abc")) USD = Raise (DecimalException ConversionSyntax) /\
  kind_of (DecimalException ConversionSyntax) = None /\
  from_str (fun _ => Return USD) (lit "abc USD") = Raise (ValueError InvalidValuePart).
Proof. repeat split; vm_compute; reflexivity. Qed.

(** ** C3: results outside the range *)

Example dollars_constructed :
  __init__ (VInt 999999999999) USD = Return (dollars 999999999999).
Proof. vm_compute. reflexivity. Qed.

(** With an amount as the other operand the range error of the
    re-construction reaches the caller. *)
Lemma add_amounts_out_of_range a b d :
  Currency_eqb (currency a) (currency b) = true ->
  dec_add (value a) (value b) = Return d -> outside_range d ->
  exists e, __add__ a (VMoney b) = Raise e /\ kind_of e = Some RangeKind.
Proof.
  intros Hc Hd Ho. unfold __add__, _check_same_currency.
  rewrite Hc, Hd. cbn [negb bind]. unfold new_Money.
  destruct (proj2 (Money_init_range_error (VDecimal d) (currency a) d eq_refl) Ho)
    as (e & He & Hk).
  exists e. rewrite He. split; [reflexivity | exact Hk].
Qed.

(** With a plain number as the other operand no [ValueError] leaves the
    operator, the range error included. *)
Lemma except_NotImplemented_raises body e :
  except_NotImplemented body = Raise e -> is_ValueError_or_TypeError e = false.
Proof.
  unfold except_NotImplemented. destruct body as [v|x]; [discriminate|].
  destruct (is_ValueError_or_TypeError x) eqn:H; [discriminate|].
  intros E. injection E as <-. exact H.
Qed.

Lemma add_number_no_range_error a k e :
  (forall m, k <> VMoney m) -> __add__ a k = Raise e ->
  kind_of e <> Some RangeKind.
Proof.
  intros Hk H.
  assert (E : is_ValueError_or_TypeError e = false).
  { destruct k; try (apply (except_NotImplemented_raises _ e H)).
    exfalso. eapply Hk. reflexivity. }
  destruct e as [site| |sg]; try discriminate.
Qed.

(** C3 (the code departs from it): 999999999999.00 USD plus itself raises the
    range error, but plus the plain number 1 the error is swallowed by the
    handler meant for unconvertible operands and [NotImplemented] is
    returned; likewise for subtraction, multiplication and division by a
    plain number.  Negation and absolute value, which have no handler, raise
    the range error (here on 1000000000000.00 USD, the amount constructed
    from [MAX_VALUE]). *)
Theorem overflow_with_plain_number_swallowed :
  __add__ (dollars 999999999999) (VMoney (dollars 999999999999))
    = Raise (ValueError AboveMaximum) /\
  __add__ (dollars 999999999999) (VInt 1) = Return NotImplemented /\
  __sub__ (dollars 999999999999) (VInt (-1)) = Return NotImplemented /\
  __rsub__ (dollars 999999999999) (VInt (-1)) = Return NotImplemented /\
  __mul__ (dollars 999999999999) (VInt 2) = Return NotImplemented /\
  __truediv__ (dollars 999999999999) (VStr (lit "0.5")) = Return NotImplemented /\
  __neg__ {| value := Fin false 100000000000000 (-2); currency := USD |}
    = Raise (ValueError BelowMinimum) /\
  __abs__ {| value := Fin false 100000000000000 (-2); currency := USD |}
    = Raise (ValueError AboveMaximum).
Proof. repeat split; vm_compute; reflexivity. Qed.

(** ** Amounts that exist *)

(** The invariant of construction: a finite number at the exponent of the
    currency, its coefficient within the context precision. *)
Lemma constructed_value m :
  constructed m ->
  exists s c,
    value m = Fin s c (stored_exp (currency m)) /\
    ndigits c <= prec /\ Etiny <= stored_exp (currency m) <= 0.
Proof.
  intros (v & cur & H).
  apply Money_init_returns in H.
  destruct H as (s & c & e & _ & _ & -> & He & Hn).
  simpl. exists s, (rescale_coeff c e (stored_exp cur)).
  pose proof (stored_exp_nonpos cur).
  repeat split; try assumption.
Qed.

Lemma dec_eq_Fin s1 c1 e1 s2 c2 e2 :
  exists b, dec_eq (Fin s1 c1 e1) (Fin s2 c2 e2) = Return b /\
            (b = true <-> (Qval s1 c1 e1 == Qval s2 c2 e2)%Q).
Proof.
  unfold dec_eq.
  destruct (dec_compare_Fin s1 c1 e1 s2 c2 e2) as (k & -> & _ & _ & HEq).
  eexists. split; [reflexivity|].
  rewrite <- HEq. destruct k; simpl; split; congruence.
Qed.

Lemma dec_eq_refl s c e : dec_eq (Fin s c e) (Fin s c e) = Return true.
Proof.
  destruct (dec_eq_Fin s c e s c e) as (b & -> & Hb).
  f_equal. apply Hb. reflexivity.
Qed.

(** ** C6: comparison *)

Lemma Currency_eqb_code a b :
  Currency_eqb a b = true <-> code a = code b.
Proof. apply str_eqb_eq. Qed.

Lemma ordering_mismatch a b :
  code (currency a) <> code (currency b) ->
  _check_same_currency a b = Raise (ValueError DifferentCurrencies).
Proof.
  intros H. unfold _check_same_currency.
  apply str_eqb_neq in H. unfold Currency_eqb. rewrite H. reflexivity.
Qed.

Lemma eq_amounts a b :
  constructed a -> constructed b ->
  exists r, __eq__ a (VMoney b) = Return (VBool r) /\
    (r = true <->
     code (currency a) = code (currency b) /\ same_value (value a) (value b)).
Proof.
  intros Ha Hb.
  destruct (constructed_value a Ha) as (sa & ca & Ea & _).
  destruct (constructed_value b Hb) as (sb & cb & Eb & _).
  unfold __eq__. rewrite Ea, Eb. simpl same_value.
  destruct (Currency_eqb (currency a) (currency b)) eqn:Hc; cbn [negb].
  - apply Currency_eqb_code in Hc.
    destruct (dec_eq_Fin sa ca (stored_exp (currency a)) sb cb (stored_exp (currency b)))
      as (r & -> & Hr).
    exists r. split; [reflexivity|].
    rewrite Hr. split; [intros H; split; assumption | intros [_ H]; exact H].
  - exists false. split; [reflexivity|].
    apply str_eqb_neq in Hc.
    split; [discriminate | intros [H _]; contradiction].
Qed.

(** C6: between amounts whose currencies differ, each of [<], [<=], [>],
    [>=] raises the currency-mismatch error while [==] returns false; [==]
    against a value that is not an amount returns false; and for amounts
    that exist [==] returns, and returns true exactly when the currency codes
    are the same and the stored numbers are the same. *)
Theorem comparison_and_currencies :
  (forall a b : Money,
      code (currency a) <> code (currency b) ->
      (forall op, In op [__lt__; __le__; __gt__; __ge__] ->
         exists e, op a (VMoney b) = Raise e /\
                   kind_of e = Some CurrencyMismatchKind) /\
      __eq__ a (VMoney b) = Return (VBool false)) /\
  (forall (a : Money) (v : PyValue),
      (forall m, v <> VMoney m) -> __eq__ a v = Return (VBool false)) /\
  (forall a b : Money,
      constructed a -> constructed b ->
      exists r, __eq__ a (VMoney b) = Return (VBool r) /\
        (r = true <->
         code (currency a) = code (currency b) /\
         same_value (value a) (value b))).
Proof.
  split; [|split].
  - intros a b H. split.
    + intros op Hop. exists (ValueError DifferentCurrencies).
      split; [|reflexivity].
      pose proof (ordering_mismatch a b H) as E.
      simpl in Hop.
      destruct Hop as [<-|[<-|[<-|[<-|[]]]]];
        unfold __lt__, __le__, __gt__, __ge__; rewrite E; reflexivity.
    + unfold __eq__. apply str_eqb_neq in H.
      unfold Currency_eqb. rewrite H. reflexivity.
  - intros a v Hv. destruct v; try reflexivity.
    exfalso. eapply Hv. reflexivity.
  - exact eq_amounts.
Qed.

Lemma comparison_and_currencies_witness :
  (forall op, In op [__lt__; __le__; __gt__; __ge__] ->
     exists e, op (dollars 1) (VMoney {| value := Fin false 100 (-2); currency := EUR |})
                 = Raise e /\
               kind_of e = Some CurrencyMismatchKind) /\
  __eq__ (dollars 1) (VMoney {| value := Fin false 100 (-2); currency := EUR |})
    = Return (VBool false).
Proof.
  apply (proj1 comparison_and_currencies (dollars 1)
           {| value := Fin false 100 (-2); currency := EUR |}).
  simpl. discriminate.
Defined.

(** ** C8: commutativity *)

Lemma dec_add_comm a b : dec_add a b = dec_add b a.
Proof.
  destruct a as [s1 c1 e1|s1|[|]], b as [s2 c2 e2|s2|[|]]; try reflexivity.
  - unfold dec_add, check_nans.
    rewrite (Z.min_comm e2 e1), (Z.add_comm (scaled s2 c2 e2 _)).
    destruct (scaled s1 c1 e1 (Z.min e1 e2) + scaled s2 c2 e2 (Z.min e1 e2) =? 0);
      [|reflexivity].
    do 2 f_equal.
    destruct (c1 =? 0)%N, (c2 =? 0)%N, s1, s2; reflexivity.
  - simpl. destruct s1, s2; reflexivity.
Qed.

(** What the constructor returns compares equal to itself. *)
Lemma constructed_eq_refl m :
  constructed m -> __eq__ m (VMoney m) = Return (VBool true).
Proof.
  intros H. destruct (constructed_value m H) as (s & c & E & _).
  unfold __eq__. rewrite (proj2 (Currency_eqb_code _ _) eq_refl). cbn [negb].
  rewrite E, dec_eq_refl. reflexivity.
Qed.

Lemma new_Money_constructed d cur m :
  new_Money d cur = Return (VMoney m) -> constructed m.
Proof.
  unfold new_Money. intros H.
  apply bind_Return_inv in H. destruct H as (m' & Hm & H).
  injection H as <-. exists (VDecimal d), cur. exact Hm.
Qed.



Lemma except_NotImplemented_Money body m :
  except_NotImplemented body = Return (VMoney m) -> body = Return (VMoney m).
Proof.
  unfold except_NotImplemented. destruct body as [v|e]; [trivial|].
  destruct (is_ValueError_or_TypeError e); discriminate.
Qed.




Example add_dollars :
  __add__ (dollars 1) (VMoney (dollars 2)) = Return (VMoney (dollars 3)) /\
  __mul__ (dollars 2) (VStr (lit "1.5")) = Return (VMoney (dollars 3)) /\
  __rmul__ (dollars 2) (VStr (lit "1.5")) = Return (VMoney (dollars 3)).
Proof. repeat split; vm_compute; reflexivity. Qed.

(** ** C10: negation, unary plus, absolute value *)

Lemma rescale_coeff_same c e : rescale_coeff c e e = c.
Proof.
  unfold rescale_coeff. destruct (N.eqb_spec c 0) as [->|H]; [reflexivity|].
  rewrite Z.leb_refl. replace (e - e) with 0 by lia.
  rewrite pow10_0. lia.
Qed.

Lemma in_range_sign s s' c e : in_range (Fin s c e) -> in_range (Fin s' c e).
Proof. intros H. apply in_range_abs. apply in_range_abs in H. exact H. Qed.

(** Constructing from a number that already has the exponent of the currency
    and fits the context stores that very number. *)
Lemma Money_init_same_exp cur s c :
  ndigits c <= prec -> Etiny <= stored_exp cur ->
  in_range (Fin s c (stored_exp cur)) ->
  __init__ (VDecimal (Fin s c (stored_exp cur))) cur =
    Return {| value := Fin s c (stored_exp cur); currency := cur |}.
Proof.
  intros Hn He Hr.
  rewrite (Money_init_in_range (VDecimal (Fin s c (stored_exp cur))) cur
             s c (stored_exp cur) eq_refl Hr).
  pose proof (stored_exp_nonpos cur) as Hs.
  pose proof (in_range_digits s c (stored_exp cur) Hr) as D.
  unfold quantum. rewrite quantize_ok, rescale_coeff_same.
  - reflexivity.
  - lia.
  - intros Hc. specialize (D Hc). unfold Emax. lia.
  - rewrite rescale_coeff_same. exact Hn.
Qed.

Lemma Money_init_stored m :
  constructed m -> in_range (value m) ->
  __init__ (VDecimal (value m)) (currency m) = Return m.
Proof.
  intros Hm Hr. destruct (constructed_value m Hm) as (s & c & E & Hn & He & _).
  rewrite E in *. rewrite Money_init_same_exp by assumption.
  destruct m as [v cur]. simpl in *. subst v. reflexivity.
Qed.

Lemma fix_ctx_stored s c e :
  ndigits c <= prec -> Etiny <= e <= 0 ->
  fix_ctx (Fin s c e) = Return (Fin s c e).
Proof.
  intros Hn He. apply fix_ctx_id; unfold Emax, prec in *; lia.
Qed.

Lemma neg_amount cur s c :
  ndigits c <= prec -> Etiny <= stored_exp cur ->
  in_range (Fin s c (stored_exp cur)) ->
  __neg__ {| value := Fin s c (stored_exp cur); currency := cur |} =
    Return (VMoney {| value := Fin (if (c =? 0)%N then false else negb s) c (stored_exp cur);
                      currency := cur |}).
Proof.
  intros Hn He Hr. pose proof (stored_exp_nonpos cur) as Hs.
  unfold __neg__, dec_neg, is_zero, copy_abs, copy_negate. cbn [value currency].
  destruct (c =? 0)%N;
    rewrite fix_ctx_stored by (try assumption; lia); cbn [bind]; unfold new_Money;
    rewrite Money_init_same_exp by
      (try assumption; eapply in_range_sign; exact Hr);
    reflexivity.
Qed.

Lemma abs_amount cur s c :
  ndigits c <= prec -> Etiny <= stored_exp cur ->
  in_range (Fin s c (stored_exp cur)) ->
  __abs__ {| value := Fin s c (stored_exp cur); currency := cur |} =
    Return (VMoney {| value := Fin false c (stored_exp cur); currency := cur |}).
Proof.
  intros Hn He Hr. pose proof (stored_exp_nonpos cur) as Hs.
  unfold __abs__, dec_abs, dec_neg, dec_pos, sign_of, is_zero, copy_abs, copy_negate.
  cbn [value currency].
  destruct s, (c =? 0)%N; cbn [negb];
    rewrite fix_ctx_stored by (try assumption; lia); cbn [bind]; unfold new_Money;
    rewrite Money_init_same_exp by
      (try assumption; eapply in_range_sign; exact Hr);
    reflexivity.
Qed.

Lemma eq_same_magnitude cur s s' c e :
  (c = 0%N \/ s = s') ->
  __eq__ {| value := Fin s c e; currency := cur |}
         (VMoney {| value := Fin s' c e; currency := cur |}) = Return (VBool true).
Proof.
  intros H. unfold __eq__. cbn [value currency].
  rewrite (proj2 (Currency_eqb_code cur cur) eq_refl). cbn [negb].
  destruct (dec_eq_Fin s c e s' c e) as (b & -> & Hb).
  cbn [bind]. do 2 f_equal. apply Hb.
  destruct H as [->| ->]; [|reflexivity].
  unfold Qval, signed. destruct s, s'; reflexivity.
Qed.

(** C10, as stated, fails: the amount constructed from [MAX_VALUE] in USD is
    stored as 1000000000000.00, which unary plus cannot re-construct. *)
Lemma unary_operations_counterexample :
  ~ (forall m : Money, constructed m -> exists r, __pos__ m = Return r).
Proof.
  intros H.
  destruct (H {| value := Fin false 100000000000000 (-2); currency := USD |})
    as [r Hr].
  - exists (VDecimal MAX_VALUE), USD. vm_compute. reflexivity.
  - vm_compute in Hr. discriminate.
Qed.

(** C10 (amended): for every amount that exists and whose stored number lies
    within [[MIN_VALUE, MAX_VALUE]], negation, unary plus and absolute value
    return amounts; negating twice gives an amount equal to the original,
    taking the absolute value twice gives an amount equal to the absolute
    value, and unary plus gives the amount itself. *)
Theorem unary_operations_on_amounts (m : Money) :
  constructed m -> in_range (value m) ->
  (exists n n', __neg__ m = Return (VMoney n) /\
                __neg__ n = Return (VMoney n') /\
                __eq__ n' (VMoney m) = Return (VBool true)) /\
  (exists p p', __abs__ m = Return (VMoney p) /\
                __abs__ p = Return (VMoney p') /\
                __eq__ p' (VMoney p) = Return (VBool true)) /\
  __pos__ m = Return (VMoney m).
Proof.
  intros Hm Hr.
  destruct (constructed_value m Hm) as (s & c & E & Hn & He & _).
  destruct m as [v cur]. cbn [value currency] in *. subst v.
  split; [|split].
  - eexists. eexists.
    split; [apply neg_amount; assumption|].
    split; [apply neg_amount; try assumption; eapply in_range_sign; exact Hr|].
    apply eq_same_magnitude.
    destruct (N.eqb_spec c 0) as [->|_]; [left; reflexivity|right].
    apply negb_involutive.
  - eexists. eexists.
    split; [apply abs_amount; assumption|].
    split; [apply abs_amount; try assumption; eapply in_range_sign; exact Hr|].
    apply eq_same_magnitude. right. reflexivity.
  - unfold __pos__, new_Money. cbn [value currency].
    rewrite Money_init_same_exp by assumption. reflexivity.
Qed.

Lemma unary_operations_on_amounts_witness :
  (exists n n', __neg__ (dollars 5) = Return (VMoney n) /\
                __neg__ n = Return (VMoney n') /\
                __eq__ n' (VMoney (dollars 5)) = Return (VBool true)) /\
  (exists p p', __abs__ (dollars 5) = Return (VMoney p) /\
                __abs__ p = Return (VMoney p') /\
                __eq__ p' (VMoney p) = Return (VBool true)) /\
  __pos__ (dollars 5) = Return (VMoney (dollars 5)).
Proof.
  apply (unary_operations_on_amounts (dollars 5)).
  - exists (VInt 5), USD. vm_compute. reflexivity.
  - split; vm_compute; discriminate.
Defined.

(** ** C5: division *)






Lemma dec_eq_zero s c e : dec_eq (Fin s c e) zero = Return (c =? 0)%N.
Proof.
  unfold dec_eq, zero, dec_compare. f_equal.
  replace (scaled false 0 0 (Z.min e 0)) with 0 by (unfold scaled; simpl; lia).
  rewrite scaled_signed.
  pose proof (pow10_pos (e - Z.min e 0)) as P.
  destruct (N.eqb_spec c 0) as [->|H].
  - unfold signed. destruct s; reflexivity.
  - destruct (Z.compare_spec (signed s c * Z.of_N (pow10 (e - Z.min e 0))) 0)
      as [E|E|E]; try reflexivity.
    exfalso. unfold signed in E. destruct s; nia.
Qed.




Example divide_ten_by_three :
  __truediv__ (dollars 10) (VMoney (dollars 3)) =
    Return (VDecimal (Fin false 3333333333333333333333333333 (-27))) /\
  __truediv__ (dollars 10) (VInt 3) =
    Return (VMoney {| value := Fin false 333 (-2); currency := USD |}) /\
  __truediv__ (dollars 10) (VInt 0) = Raise ZeroDivisionError /\
  __truediv__ (dollars 10) (VMoney (dollars 0)) = Raise ZeroDivisionError.
Proof. repeat split; vm_compute; reflexivity. Qed.




(** ** C9: parsing *)

(** The constructor raises range errors and decimal signals, nothing else. *)
Lemma Money_init_raise_kind v cur e :
  __init__ v cur = Raise e ->
  kind_of e = Some RangeKind \/ kind_of e = None.
Proof.
  rewrite Money_init_unfold.
  destruct (to_decimal v) as [d|x] eqn:Hv; cbn [bind].
  2:{ intros H. injection H as <-.
      rewrite (to_decimal_raises v x Hv). right. reflexivity. }
  destruct (dec_gt d MAX_VALUE) as [[|]|x] eqn:G; cbn [bind].
  - intros H. injection H as <-. left. reflexivity.
  - destruct (dec_lt d MIN_VALUE) as [[|]|x] eqn:L; cbn [bind].
    + intros H. injection H as <-. left. reflexivity.
    + destruct (quantize d (quantum cur)) as [r|x] eqn:Q; cbn [bind];
        [discriminate|].
      intros H. injection H as <-.
      apply quantize_raises in Q. destruct Q as [sg ->]. right. reflexivity.
    + intros H. injection H as <-.
      unfold dec_lt, dec_order in L. destruct (dec_compare d MIN_VALUE);
        [discriminate|]. injection L as <-. right. reflexivity.
  - intros H. injection H as <-.
    unfold dec_gt, dec_order in G. destruct (dec_compare d MAX_VALUE);
      [discriminate|]. injection G as <-. right. reflexivity.
Qed.

Lemma from_str_two_parts lookup text v c :
  split (strip text) = [v; c] ->
  from_str lookup text =
    (d <- match Decimal_of_str v with
          | Raise e =>
              if is_ValueError_TypeError_or_InvalidOperation e
              then Raise (ValueError InvalidValuePart) else Raise e
          | Return d => Return d
          end ;;
     cur <- match lookup c with
            | Raise (ValueError _) => Raise (ValueError InvalidCurrencyPart)
            | r => r
            end ;;
     __init__ (VDecimal d) cur).
Proof.
  intros H. unfold from_str.
  destruct (strip text) as [|a t]; [discriminate|].
  rewrite H. reflexivity.
Qed.

Lemma from_str_not_two_parts lookup text :
  strip text <> [] -> (forall v c, split (strip text) <> [v; c]) ->
  from_str lookup text = Raise (ValueError NotTwoParts).
Proof.
  intros Hne H. unfold from_str.
  destruct (strip text) as [|a t]; [congruence|].
  destruct (split (a :: t)) as [|v [|c [|x l]]]; try reflexivity.
  exfalso. apply (H v c). reflexivity.
Qed.

Lemma from_str_format_error lookup text :
  (exists e, from_str lookup text = Raise e /\ kind_of e = Some FormatKind) <->
  (strip text = [] \/
   (forall v c, split (strip text) <> [v; c]) \/
   exists v c, split (strip text) = [v; c] /\
     ((exists e, Decimal_of_str v = Raise e) \/
      (exists site, lookup c = Raise (ValueError site)))).
Proof.
  split.
  - intros (e & He & Hk).
    destruct (strip text) as [|a t] eqn:Hs; [left; reflexivity|right].
    destruct (split (a :: t)) as [|v [|c [|x l]]] eqn:Hp;
      try (left; intros v' c'; discriminate).
    right. exists v, c. split; [reflexivity|].
    rewrite (from_str_two_parts lookup text v c) in He by (rewrite Hs; exact Hp).
    destruct (Decimal_of_str v) as [d|x] eqn:Hd; [|left; exists x; reflexivity].
    right. cbn [bind] in He.
    destruct (lookup c) as [cur|[site| |sg]] eqn:Hl; cbn [bind] in He.
    + apply Money_init_raise_kind in He. destruct He as [K|K]; congruence.
    + exists site. reflexivity.
    + injection He as <-. discriminate.
    + injection He as <-. discriminate.
  - intros [H|[H|(v & c & Hp & H)]].
    + exists (ValueError EmptyValueString). unfold from_str. rewrite H.
      split; reflexivity.
    + destruct (strip text) as [|a t] eqn:Hs.
      * exists (ValueError EmptyValueString). unfold from_str. rewrite Hs.
        split; reflexivity.
      * exists (ValueError NotTwoParts). split; [|reflexivity].
        apply from_str_not_two_parts; rewrite Hs; [discriminate | exact H].
    + rewrite (from_str_two_parts lookup text v c Hp).
      destruct H as [[e He]|[site Hl]].
      * exists (ValueError InvalidValuePart). split; [|reflexivity].
        rewrite He, (Decimal_of_str_raises v e He). reflexivity.
      * destruct (Decimal_of_str v) as [d|e] eqn:Hd.
        -- exists (ValueError InvalidCurrencyPart). split; [|reflexivity].
           cbn [bind]. rewrite Hl. reflexivity.
        -- exists (ValueError InvalidValuePart). split; [|reflexivity].
           rewrite (Decimal_of_str_raises v e Hd). reflexivity.
Qed.

(** C9, as stated, fails: with a lookup that knows no currency, the text
    [1.00 XXX] is not empty, has two parts and a first part that is a decimal
    literal, and still fails with a format error. *)
Lemma parse_format_counterexample :
  ~ (forall (lookup : str -> outcome Currency) (text : str),
       (exists e, from_str lookup text = Raise e /\ kind_of e = Some FormatKind) <->
       (strip text = [] \/
        (forall v c, split (strip text) <> [v; c]) \/
        exists v c, split (strip text) = [v; c] /\
                    exists e, Decimal_of_str v = Raise e)).
Proof.
  intros H.
  destruct (H (fun _ => Raise (ValueError ElsewhereRaised)) (lit "1.00 XXX"))
    as [H1 _].
  destruct H1 as [E|[E|(v & c & E & e & He)]].
  - exists (ValueError InvalidCurrencyPart). split; vm_compute; reflexivity.
  - vm_compute in E. discriminate.
  - apply (E (lit "1.00") (lit "XXX")). vm_compute. reflexivity.
  - vm_compute in E. injection E as <- <-. vm_compute in He. discriminate.
Qed.

(** C9 (amended): [from_str] trims its input and fails with a format error
    exactly when the trimmed input is empty, or does not split into exactly
    two parts at white space, or the first part is not a decimal literal, or
    the currency lookup raises a [ValueError] for the second part; when both
    parts are accepted, the result is that of the constructor on the parsed
    decimal and the currency found, so the range and precision rules are
    those of construction. *)
Theorem parse_format_errors (lookup : str -> outcome Currency) (text : str) :
  ((exists e, from_str lookup text = Raise e /\ kind_of e = Some FormatKind) <->
   (strip text = [] \/
    (forall v c, split (strip text) <> [v; c]) \/
    exists v c, split (strip text) = [v; c] /\
      ((exists e, Decimal_of_str v = Raise e) \/
       (exists site, lookup c = Raise (ValueError site))))) /\
  (forall v c d cur,
      split (strip text) = [v; c] ->
      Decimal_of_str v = Return d -> lookup c = Return cur ->
      from_str lookup text = __init__ (VDecimal d) cur).
Proof.
  split; [apply from_str_format_error|].
  intros v c d cur Hp Hd Hl.
  rewrite (from_str_two_parts lookup text v c Hp), Hd, Hl. reflexivity.
Qed.

Lemma parse_format_errors_witness :
  from_str (fun _ => Return USD) (lit "  1000.505   USD ") =
    __init__ (VDecimal (Fin false 1000505 (-3))) USD.
Proof.
  apply (proj2 (parse_format_errors (fun _ => Return USD) (lit "  1000.505   USD "))
           (lit "1000.505") (lit "USD") (Fin false 1000505 (-3)) USD);
    vm_compute; reflexivity.
Defined.

(** ** C7: formatting and parsing back *)

Lemma take_sign_digit ch r :
  is_digit ch = true -> take_sign (ch :: r) = (false, ch :: r).
Proof.
  destruct ch as [[] [] [] [] [] [] [] []]; vm_compute; congruence.
Qed.

Lemma str_of_N_nonempty n : str_of_N n <> [].
Proof.
  pose proof (ndigits_pos n) as H. unfold ndigits in H.
  destruct (str_of_N n); [simpl in H; lia | discriminate].
Qed.

Lemma parse_exponent_plus_d z :
  parse_exponent ("E"%char :: str_plus_d z) = Some z.
Proof.
  unfold parse_exponent, str_plus_d.
  change (Ascii.eqb (lower "E") "e") with true. cbv iota.
  pose proof (str_of_N_nonempty (Z.abs_N z)) as Hne.
  pose proof (str_of_N_digits (Z.abs_N z)) as Hd.
  pose proof (digits_val_str_of_N (Z.abs_N z)) as Hv.
  destruct (Z.ltb_spec z 0) as [L|L]; cbn [take_sign];
    destruct (str_of_N (Z.abs_N z)) as [|a l]; try congruence;
    rewrite Hd, Hv; f_equal; lia.
Qed.

Lemma exponent_text L dp :
  let text := if L =? dp then [] else "E"%char :: str_plus_d (L - dp) in
  parse_exponent text = Some (L - dp) /\
  match text with
  | [] => True
  | ch :: _ => is_digit ch = false /\ ch <> "."%char
  end /\
  forallb literal_char text = true.
Proof.
  cbv zeta. destruct (Z.eqb_spec L dp) as [->|H].
  - replace (dp - dp) with 0 by lia. repeat split.
  - split; [apply parse_exponent_plus_d|].
    split; [split; [reflexivity | discriminate]|].
    unfold str_plus_d. cbn [forallb].
    rewrite (all_digits_literal _ (str_of_N_digits _)).
    destruct (L - dp <? 0); reflexivity.
Qed.

Lemma all_digits_firstn_skipn k s :
  all_digits s = true ->
  all_digits (firstn k s) = true /\ all_digits (skipn k s) = true.
Proof.
  intros H. rewrite <- (firstn_skipn k s), all_digits_app in H.
  apply andb_prop in H. exact H.
Qed.

Lemma forallb_literal_app a b :
  forallb literal_char a = true -> forallb literal_char b = true ->
  forallb literal_char (a ++ b) = true.
Proof. intros Ha Hb. rewrite forallb_app, Ha, Hb. reflexivity. Qed.

(** The text [str()] gives a finite number, without its sign, reads back as
    the same coefficient and exponent. *)
Lemma parse_finite_dec_str sign c e :
  let body := dec_str (Fin false c e) in
  parse_finite sign body = Some (Fin sign c e) /\
  forallb literal_char body = true /\
  exists ch r, body = ch :: r /\ is_digit ch = true.
Proof.
  cbv zeta. unfold dec_str. cbn [app].
  pose proof (str_of_N_digits c) as Hd.
  pose proof (digits_val_str_of_N c) as Hv.
  pose proof (ndigits_pos c) as Hn. unfold ndigits in Hn.
  pose proof (str_of_N_nonempty c) as Hne.
  set (digits := str_of_N c) in *.
  set (n := Z.of_nat (List.length digits)) in *.
  set (L := e + n).
  set (dp := if (e <=? 0) && (L >? -6) then L else 1).
  assert (Hdp : dp = L /\ e <= 0 \/ dp = 1).
  { unfold dp. destruct (Z.leb_spec e 0); [|right; reflexivity].
    destruct (L >? -6); [left; split; [reflexivity | assumption] | right; reflexivity]. }
  destruct (exponent_text L dp) as (Hx & Hh & Hl). cbv zeta in Hx, Hh, Hl.
  set (text := if L =? dp then [] else "E"%char :: str_plus_d (L - dp)) in *.
  assert (Hnd : no_digit_head text).
  { destruct text; [exact I | apply Hh]. }
  destruct (Z.leb_spec dp 0) as [D0|D0].
  - (* 0.000ddd *)
    split; [|split].
    + change (lit "0" ++ ("."%char :: zeros (- dp) ++ digits) ++ text)
        with (["0"%char] ++ "."%char :: (zeros (- dp) ++ digits) ++ text).
      rewrite (parse_finite_point sign ["0"%char] (zeros (- dp) ++ digits) text (L - dp));
        try assumption; try reflexivity; try discriminate.
      * f_equal. f_equal.
        -- change (["0"%char] ++ zeros (- dp) ++ digits)
             with (zeros 1 ++ zeros (- dp) ++ digits).
           rewrite !digits_val_zeros. exact Hv.
        -- rewrite length_app, Nat2Z.inj_add, length_zeros by lia.
           fold n. unfold L. lia.
      * rewrite all_digits_app, all_digits_zeros, Hd. reflexivity.
    + cbn [lit list_ascii_of_string app forallb]. cbn [forallb].
      change (literal_char "0") with true. change (literal_char ".") with true.
      cbn [andb].
      apply forallb_literal_app; [|exact Hl].
      apply forallb_literal_app; apply all_digits_literal;
        [apply all_digits_zeros | exact Hd].
    + eexists. eexists. split; reflexivity.
  - destruct (Z.geb_spec dp n) as [Dn|Dn].
    + (* ddd *)
      assert (E : dp = n) by (unfold L in Hdp; lia).
      replace (dp - n) with 0 by lia. change (zeros 0) with (@nil ascii).
      rewrite !app_nil_r. cbn [app].
      split; [|split].
      * rewrite (parse_finite_integer sign digits text (L - dp));
          try assumption.
        f_equal. f_equal; [exact Hv | unfold L; lia].
      * apply forallb_literal_app; [apply all_digits_literal, Hd | exact Hl].
      * destruct digits as [|ch r]; [congruence|].
        exists ch, (r ++ text). split; [reflexivity|].
        simpl in Hd. apply andb_prop in Hd. apply Hd.
    + (* dd.ddd *)
      destruct (all_digits_firstn_skipn (Z.to_nat dp) digits Hd) as [Hf Hs].
      cbn [app].
      split; [|split].
      * rewrite (parse_finite_point sign (firstn (Z.to_nat dp) digits)
                   (skipn (Z.to_nat dp) digits) text (L - dp));
          try assumption.
        -- rewrite firstn_skipn, length_skipn. fold digits.
           f_equal. f_equal; [exact Hv|]. unfold L, n in *. lia.
        -- rewrite firstn_skipn. exact Hne.
      * apply forallb_literal_app; [apply all_digits_literal, Hf|].
        cbn [forallb]. change (literal_char ".") with true. cbn [andb].
        apply forallb_literal_app; [apply all_digits_literal, Hs | exact Hl].
      * destruct digits as [|ch r]; [congruence|].
        destruct (Z.to_nat dp) as [|k] eqn:K; [lia|].
        exists ch. eexists. split; [reflexivity|].
        simpl in Hd. apply andb_prop in Hd. apply Hd.
Qed.

Lemma dec_str_sign s c e :
  dec_str (Fin s c e) =
    (if s then ["-"%char] else []) ++ dec_str (Fin false c e).
Proof. destruct s; reflexivity. Qed.

(** [Decimal(str(d)) = d] for every finite [d]. *)
Lemma Decimal_of_dec_str s c e :
  Decimal_of_str (dec_str (Fin s c e)) = Return (Fin s c e) /\
  forallb literal_char (dec_str (Fin s c e)) = true /\
  dec_str (Fin s c e) <> [].
Proof.
  destruct (parse_finite_dec_str s c e) as (Hp & Hl & ch & r & Hb & Hc).
  cbv zeta in Hp, Hl, Hb.
  assert (Hall : forallb literal_char (dec_str (Fin s c e)) = true).
  { rewrite dec_str_sign. apply forallb_literal_app; [|exact Hl].
    destruct s; reflexivity. }
  split; [|split; [exact Hall|]].
  - rewrite Decimal_of_str_plain by (apply forallb_literal_plain, Hall).
    rewrite dec_str_sign. destruct s.
    + cbn [app take_sign]. rewrite Hp. reflexivity.
    + cbn [app]. rewrite Hb, (take_sign_digit ch r Hc), <- Hb, Hp. reflexivity.
  - rewrite dec_str_sign. destruct s; [discriminate|].
    cbn [app]. rewrite Hb. discriminate.
Qed.

Lemma split_loop_word w : forall rest acc,
  forallb (fun ch => negb (is_space ch)) w = true ->
  split_loop (w ++ rest) acc = split_loop rest (rev w ++ acc).
Proof.
  induction w as [|ch w IH]; intros rest acc H; [reflexivity|].
  simpl in H. apply andb_prop in H. destruct H as [Hc Hw].
  apply negb_true_iff in Hc. simpl. rewrite Hc, (IH rest (ch :: acc) Hw).
  rewrite <- app_assoc. reflexivity.
Qed.

Lemma split_two a b :
  token a -> token b -> split (a ++ " "%char :: b) = [a; b].
Proof.
  intros [Ha Sa] [Hb Sb]. unfold split.
  rewrite (split_loop_word a _ [] Sa), app_nil_r.
  cbn [split_loop]. change (is_space " ") with true. cbv iota.
  assert (Ra : rev a <> []).
  { intros E. apply (f_equal (@rev ascii)) in E.
    rewrite rev_involutive in E. exact (Ha E). }
  destruct (rev a) as [|x l] eqn:Er; [congruence|].
  rewrite <- Er, rev_involutive.
  rewrite <- (app_nil_r b), (split_loop_word b [] [] Sb), app_nil_r.
  cbn [split_loop].
  assert (Rb : rev b <> []).
  { intros E. apply (f_equal (@rev ascii)) in E.
    rewrite rev_involutive in E. exact (Hb E). }
  destruct (rev b) as [|y k] eqn:Eb; [congruence|].
  rewrite <- Eb, rev_involutive, app_nil_r. reflexivity.
Qed.

Lemma token_head a :
  token a -> exists ch r, a = ch :: r /\ is_space ch = false.
Proof.
  intros [Ha Sa]. destruct a as [|ch r]; [congruence|].
  exists ch, r. split; [reflexivity|].
  simpl in Sa. apply andb_prop in Sa. destruct Sa as [H _].
  apply negb_true_iff, H.
Qed.

Lemma token_rev a : token a -> token (rev a).
Proof.
  intros [Ha Sa]. split.
  - intros E. apply (f_equal (@rev ascii)) in E.
    rewrite rev_involutive in E. exact (Ha E).
  - rewrite forallb_forall in *. intros x Hx. apply Sa, in_rev, Hx.
Qed.

Lemma strip_two a b :
  token a -> token b -> strip (a ++ " "%char :: b) = a ++ " "%char :: b.
Proof.
  intros Ta Tb.
  destruct (token_head a Ta) as (x & r & Ea & Hx).
  destruct (token_head (rev b) (token_rev b Tb)) as (y & u & Eb & Hy).
  apply (strip_ends _ x (r ++ " "%char :: b) y (u ++ " "%char :: rev a)).
  - rewrite Ea. reflexivity.
  - rewrite rev_app_distr. cbn [rev]. rewrite <- app_assoc, Eb. reflexivity.
  - exact Hx.
  - exact Hy.
Qed.

Lemma dec_str_token s c e : token (dec_str (Fin s c e)).
Proof.
  destruct (Decimal_of_dec_str s c e) as (_ & Hl & Hne).
  split; [exact Hne|].
  apply forallb_literal_plain in Hl.
  rewrite forallb_forall in *. intros x Hx.
  apply negb_true_iff, plain_not_space, Hl, Hx.
Qed.

(** Parsing the text of an amount gives the amount back. *)
Lemma from_str_Money_str lookup m :
  constructed m -> in_range (value m) ->
  token (code (currency m)) ->
  lookup (code (currency m)) = Return (currency m) ->
  from_str lookup (__str__ m) = Return m.
Proof.
  intros Hm Hr Hc Hl.
  destruct (constructed_value m Hm) as (s & c & E & _).
  pose proof (dec_str_token s c (stored_exp (currency m))) as Td.
  assert (Et : __str__ m =
               dec_str (Fin s c (stored_exp (currency m))) ++
               " "%char :: code (currency m)).
  { unfold __str__. rewrite E. reflexivity. }
  rewrite (from_str_two_parts lookup (__str__ m)
             (dec_str (Fin s c (stored_exp (currency m)))) (code (currency m))).
  - rewrite (proj1 (Decimal_of_dec_str s c (stored_exp (currency m)))).
    cbn [bind]. rewrite Hl. cbn [bind].
    rewrite <- E. apply Money_init_stored; assumption.
  - rewrite Et, strip_two by assumption. apply split_two; assumption.
Qed.

Example format_1000_50 :
  __init__ (VStr (lit "1000.50")) USD
    = Return {| value := Fin false 100050 (-2); currency := USD |} /\
  __init__ (VFloat (lit "1000.5")) USD
    = Return {| value := Fin false 100050 (-2); currency := USD |} /\
  __str__ {| value := Fin false 100050 (-2); currency := USD |}
    = lit "1000.50 USD".
Proof. repeat split; vm_compute; reflexivity. Qed.

(** C7, as stated, fails: the amount constructed from [MAX_VALUE] in USD
    prints as [1000000000000.00 USD], which [from_str] rejects as out of
    range. *)
Lemma parse_format_round_trip_counterexample :
  ~ (forall (lookup : str -> outcome Currency) (m : Money),
       constructed m -> token (code (currency m)) ->
       lookup (code (currency m)) = Return (currency m) ->
       exists m', from_str lookup (__str__ m) = Return m' /\
                  __eq__ m' (VMoney m) = Return (VBool true)).
Proof.
  intros H.
  destruct (H (fun _ => Return USD)
              {| value := Fin false 100000000000000 (-2); currency := USD |})
    as (m' & Hm' & _).
  - exists (VDecimal MAX_VALUE), USD. vm_compute. reflexivity.
  - split; [discriminate | reflexivity].
  - reflexivity.
  - vm_compute in Hm'. discriminate.
Qed.

(** C7 (amended): for every amount [m] that exists, whose stored number lies
    within [[MIN_VALUE, MAX_VALUE]] and whose currency code is a single token
    that the currency lookup resolves to the currency of [m], the text of [m]
    is the text of its number, one space, and the code; the text of the number
    reads back as that very number, trailing zeros included; and parsing the
    text of [m] returns an amount equal to [m]. *)
Theorem parse_format_round_trip (lookup : str -> outcome Currency) (m : Money) :
  constructed m -> in_range (value m) ->
  token (code (currency m)) ->
  lookup (code (currency m)) = Return (currency m) ->
  __str__ m = dec_str (value m) ++ " "%char :: code (currency m) /\
  Decimal_of_str (dec_str (value m)) = Return (value m) /\
  exists m', from_str lookup (__str__ m) = Return m' /\
             __eq__ m' (VMoney m) = Return (VBool true).
Proof.
  intros Hm Hr Hc Hl. split; [reflexivity|]. split.
  - destruct (constructed_value m Hm) as (s & c & E & _).
    rewrite E. apply Decimal_of_dec_str.
  - exists m. split.
    + apply from_str_Money_str; assumption.
    + apply constructed_eq_refl, Hm.
Qed.

Lemma parse_format_round_trip_witness :
  __str__ (dollars 5) = dec_str (value (dollars 5)) ++ " "%char :: lit "USD" /\
  Decimal_of_str (dec_str (value (dollars 5))) = Return (value (dollars 5)) /\
  exists m', from_str (fun _ => Return USD) (__str__ (dollars 5)) = Return m' /\
             __eq__ m' (VMoney (dollars 5)) = Return (VBool true).
Proof.
  apply (parse_format_round_trip (fun _ => Return USD) (dollars 5)).
  - exists (VInt 5), USD. vm_compute. reflexivity.
  - split; vm_compute; discriminate.
  - split; [discriminate | reflexivity].
  - reflexivity.
Defined.

(** * Further properties of the module *)

(** ** The invariant of construction *)

Lemma Qval_le_scaled s1 c1 e1 s2 c2 e2 e0 :
  e0 <= e1 -> e0 <= e2 ->
  (Qval s1 c1 e1 <= Qval s2 c2 e2)%Q <-> scaled s1 c1 e1 e0 <= scaled s2 c2 e2 e0.
Proof.
  intros H1 H2.
  rewrite (Qval_scaled s1 c1 e1 e0 H1), (Qval_scaled s2 c2 e2 e0 H2).
  rewrite Qmult_le_r by apply Q10_pos.
  rewrite <- Zle_Qle. reflexivity.
Qed.

Lemma Qabs_Qval s c e : (Qabs (Qval s c e) == Qval false c e)%Q.
Proof.
  destruct s.
  - rewrite Qval_neg, Qabs_opp. apply Qabs_pos, Qval_nonneg.
  - apply Qabs_pos, Qval_nonneg.
Qed.

Lemma Qval_le_pow10 c e k :
  e <= k -> (c <= pow10 (k - e))%N -> (Qval false c e <= Q10 k)%Q.
Proof.
  intros He Hc.
  assert (E : (Q10 k == Qval false 1 k)%Q).
  { unfold Qval, signed. simpl. ring. }
  rewrite E.
  apply (Qval_le_scaled false c e false 1 k e); [lia | exact He|].
  unfold scaled. replace (e - e) with 0 by lia. rewrite pow10_0. lia.
Qed.

Lemma constructed_bound m :
  constructed m ->
  exists s c,
    value m = Fin s c (stored_exp (currency m)) /\
    ndigits c <= prec /\ Etiny <= stored_exp (currency m) <= 0 /\
    (c <= pow10 (12 - stored_exp (currency m)))%N.
Proof.
  intros (v & cur & H).
  apply Money_init_returns in H.
  destruct H as (s & c & e & _ & Hr & -> & He & Hn).
  cbn [value currency]. exists s, (rescale_coeff c e (stored_exp cur)).
  pose proof (stored_exp_nonpos cur) as Hs.
  repeat split; try assumption.
  apply rescale_coeff_le; [|lia].
  apply (in_range_digits s c e Hr).
Qed.

(** X1: every amount the constructor returned holds a finite number whose
    exponent is that of its currency (minus the precision, or 0 when the
    precision is not positive), whose coefficient has at most 28 digits, and
    whose magnitude is at most 10^12: rounding can carry a stored number past
    [MAX_VALUE], but never past 1000000000000. *)
Theorem constructed_invariant (m : Money) :
  constructed m ->
  exists s c,
    value m = Fin s c (stored_exp (currency m)) /\
    ndigits c <= 28 /\
    (Qabs (amount_Q m) <= inject_Z 1000000000000)%Q.
Proof.
  intros H. destruct (constructed_bound m H) as (s & c & E & Hn & He & Hc).
  exists s, c. split; [exact E|]. split; [exact Hn|].
  unfold amount_Q. rewrite E, Qabs_Qval.
  assert (Q : (inject_Z 1000000000000 == Q10 12)%Q) by reflexivity.
  rewrite Q. apply Qval_le_pow10; [lia | exact Hc].
Qed.

Lemma constructed_invariant_witness :
  exists s c,
    value (dollars 5) = Fin s c (stored_exp (currency (dollars 5))) /\
    ndigits c <= 28 /\
    (Qabs (amount_Q (dollars 5)) <= inject_Z 1000000000000)%Q.
Proof.
  apply (constructed_invariant (dollars 5)).
  exists (VInt 5), USD. vm_compute. reflexivity.
Defined.

(** ** Ordering and equality of amounts *)

Lemma dec_order_Fin s1 c1 e1 s2 c2 e2 :
  exists lt le gt ge,
    dec_lt (Fin s1 c1 e1) (Fin s2 c2 e2) = Return lt /\
    dec_le (Fin s1 c1 e1) (Fin s2 c2 e2) = Return le /\
    dec_gt (Fin s1 c1 e1) (Fin s2 c2 e2) = Return gt /\
    dec_ge (Fin s1 c1 e1) (Fin s2 c2 e2) = Return ge /\
    (lt = true <-> (Qval s1 c1 e1 < Qval s2 c2 e2)%Q) /\
    (le = true <-> (Qval s1 c1 e1 <= Qval s2 c2 e2)%Q) /\
    (gt = true <-> (Qval s2 c2 e2 < Qval s1 c1 e1)%Q) /\
    (ge = true <-> (Qval s2 c2 e2 <= Qval s1 c1 e1)%Q).
Proof.
  unfold dec_lt, dec_le, dec_gt, dec_ge, dec_order.
  destruct (dec_compare_Fin s1 c1 e1 s2 c2 e2) as (k & -> & HLt & HGt & HEq).
  do 4 eexists. repeat (split; [reflexivity|]).
  assert (L : (Qval s1 c1 e1 <= Qval s2 c2 e2)%Q <-> k <> Gt).
  { rewrite HGt. split.
    - intros A B. exact (Qle_not_lt _ _ A B).
    - intros A. apply Qnot_lt_le. exact A. }
  assert (G : (Qval s2 c2 e2 <= Qval s1 c1 e1)%Q <-> k <> Lt).
  { rewrite HLt. split.
    - intros A B. exact (Qle_not_lt _ _ A B).
    - intros A. apply Qnot_lt_le. exact A. }
  rewrite <- HLt, <- HGt, L, G.
  destruct k; simpl; repeat split; congruence.
Qed.

(** X2: between two existing amounts with the same currency code the four
    ordering operators return (they do not raise), and what they return is
    the order of the numbers held: [a < b] exactly when the number of [a] is
    below that of [b], and likewise for [<=], [>], [>=]. *)
Theorem ordering_follows_numbers (a b : Money) :
  constructed a -> constructed b ->
  code (currency a) = code (currency b) ->
  exists lt le gt ge,
    __lt__ a (VMoney b) = Return (VBool lt) /\
    __le__ a (VMoney b) = Return (VBool le) /\
    __gt__ a (VMoney b) = Return (VBool gt) /\
    __ge__ a (VMoney b) = Return (VBool ge) /\
    (lt = true <-> (amount_Q a < amount_Q b)%Q) /\
    (le = true <-> (amount_Q a <= amount_Q b)%Q) /\
    (gt = true <-> (amount_Q b < amount_Q a)%Q) /\
    (ge = true <-> (amount_Q b <= amount_Q a)%Q).
Proof.
  intros Ha Hb Hc.
  destruct (constructed_value a Ha) as (sa & ca & Ea & _).
  destruct (constructed_value b Hb) as (sb & cb & Eb & _).
  unfold __lt__, __le__, __gt__, __ge__, _check_same_currency, amount_Q.
  rewrite (proj2 (Currency_eqb_code _ _) Hc), Ea, Eb. cbn [negb bind].
  destruct (dec_order_Fin sa ca (stored_exp (currency a))
              sb cb (stored_exp (currency b)))
    as (lt & le & gt & ge & -> & -> & -> & -> & H).
  exists lt, le, gt, ge. cbn [bind]. repeat (split; [reflexivity|]). exact H.
Qed.

Lemma ordering_follows_numbers_witness :
  exists lt le gt ge,
    __lt__ (dollars 1) (VMoney (dollars 2)) = Return (VBool lt) /\
    __le__ (dollars 1) (VMoney (dollars 2)) = Return (VBool le) /\
    __gt__ (dollars 1) (VMoney (dollars 2)) = Return (VBool gt) /\
    __ge__ (dollars 1) (VMoney (dollars 2)) = Return (VBool ge) /\
    (lt = true <-> (amount_Q (dollars 1) < amount_Q (dollars 2))%Q) /\
    (le = true <-> (amount_Q (dollars 1) <= amount_Q (dollars 2))%Q) /\
    (gt = true <-> (amount_Q (dollars 2) < amount_Q (dollars 1))%Q) /\
    (ge = true <-> (amount_Q (dollars 2) <= amount_Q (dollars 1))%Q).
Proof.
  apply (ordering_follows_numbers (dollars 1) (dollars 2)).
  - exists (VInt 1), USD. vm_compute. reflexivity.
  - exists (VInt 2), USD. vm_compute. reflexivity.
  - reflexivity.
Defined.

Lemma eq_amounts_Q a b :
  constructed a -> constructed b ->
  exists r, __eq__ a (VMoney b) = Return (VBool r) /\
    (r = true <->
     code (currency a) = code (currency b) /\ (amount_Q a == amount_Q b)%Q).
Proof.
  intros Ha Hb. destruct (eq_amounts a b Ha Hb) as (r & Hr & H).
  exists r. split; [exact Hr|]. rewrite H.
  destruct (constructed_value a Ha) as (sa & ca & Ea & _).
  destruct (constructed_value b Hb) as (sb & cb & Eb & _).
  unfold amount_Q. rewrite Ea, Eb. reflexivity.
Qed.

(** X3: on the amounts that exist [==] is an equivalence: every amount
    equals itself, [a == b] and [b == a] have the same result, and equality
    passes from [a == b] and [b == c] to [a == c]. *)
Theorem equality_is_equivalence (a b c : Money) :
  constructed a -> constructed b -> constructed c ->
  __eq__ a (VMoney a) = Return (VBool true) /\
  __eq__ a (VMoney b) = __eq__ b (VMoney a) /\
  (__eq__ a (VMoney b) = Return (VBool true) ->
   __eq__ b (VMoney c) = Return (VBool true) ->
   __eq__ a (VMoney c) = Return (VBool true)).
Proof.
  intros Ha Hb Hc.
  destruct (eq_amounts_Q a b Ha Hb) as (r1 & E1 & H1).
  destruct (eq_amounts_Q b a Hb Ha) as (r2 & E2 & H2).
  destruct (eq_amounts_Q b c Hb Hc) as (r3 & E3 & H3).
  destruct (eq_amounts_Q a c Ha Hc) as (r4 & E4 & H4).
  split; [apply constructed_eq_refl, Ha|]. split.
  - rewrite E1, E2. do 2 f_equal.
    destruct r1, r2; try reflexivity.
    + destruct (proj1 H1 eq_refl) as [A B].
      symmetry. apply H2. split; [congruence | symmetry; exact B].
    + destruct (proj1 H2 eq_refl) as [A B].
      apply H1. split; [congruence | symmetry; exact B].
  - rewrite E1, E3, E4. intros X Y.
    injection X as ->. injection Y as ->.
    destruct (proj1 H1 eq_refl) as [A B].
    destruct (proj1 H3 eq_refl) as [A' B'].
    do 2 f_equal. apply H4. split; [congruence|].
    rewrite B. exact B'.
Qed.

Lemma equality_is_equivalence_witness :
  __eq__ (dollars 1) (VMoney (dollars 1)) = Return (VBool true) /\
  __eq__ (dollars 1) (VMoney (dollars 2)) = __eq__ (dollars 2) (VMoney (dollars 1)) /\
  (__eq__ (dollars 1) (VMoney (dollars 2)) = Return (VBool true) ->
   __eq__ (dollars 2) (VMoney (dollars 3)) = Return (VBool true) ->
   __eq__ (dollars 1) (VMoney (dollars 3)) = Return (VBool true)).
Proof.
  apply (equality_is_equivalence (dollars 1) (dollars 2) (dollars 3)).
  - exists (VInt 1), USD. vm_compute. reflexivity.
  - exists (VInt 2), USD. vm_compute. reflexivity.
  - exists (VInt 3), USD. vm_compute. reflexivity.
Defined.

(** ** Exact addition and subtraction of amounts *)

Lemma signed_abs s c v :
  v = signed s c -> Z.abs_N v = c.
Proof. intros ->. unfold signed. destruct s; lia. Qed.


(** The sum of two finite numbers of the same exponent, when it fits the
    context, is the exact sum at that exponent. *)
Lemma dec_add_same_exp s1 c1 s2 c2 e :
  Etiny <= e <= 0 ->
  ndigits (Z.abs_N (signed s1 c1 + signed s2 c2)) <= prec ->
  exists s,
    dec_add (Fin s1 c1 e) (Fin s2 c2 e) =
      Return (Fin s (Z.abs_N (signed s1 c1 + signed s2 c2)) e) /\
    signed s (Z.abs_N (signed s1 c1 + signed s2 c2)) = signed s1 c1 + signed s2 c2.
Proof.
  intros He Hn. unfold dec_add, check_nans.
  rewrite Z.min_id, !scaled_signed. replace (e - e) with 0 by lia.
  rewrite pow10_0, !Z.mul_1_r.
  set (v := signed s1 c1 + signed s2 c2) in *.
  eexists. split.
  - apply fix_ctx_stored; assumption.
  - destruct (Z.eqb_spec v 0) as [E|E].
    + rewrite E. unfold signed. simpl.
      destruct ((c1 =? 0)%N && (c2 =? 0)%N && s1 && s2); reflexivity.
    + unfold signed. destruct (Z.ltb_spec v 0); lia.
Qed.






Lemma signed_negb s c : signed (negb s) c = - signed s c.
Proof. unfold signed. destruct s; simpl; lia. Qed.



(** ** A plain number as the other operand *)

Lemma Money_init_raises v cur e :
  __init__ v cur = Raise e ->
  e = ValueError AboveMaximum \/ e = ValueError BelowMinimum \/
  exists sg, e = DecimalException sg.
Proof.
  intros H. destruct e as [site| |sg].
  - destruct (Money_init_raise_kind v cur _ H) as [K|K];
      destruct site; try discriminate; auto.
    exfalso. rewrite Money_init_unfold in H.
    destruct (to_decimal v) as [d|x] eqn:Hv; cbn [bind] in H.
    2:{ rewrite (to_decimal_raises v x Hv) in H. discriminate. }
    destruct (dec_gt d MAX_VALUE) as [[|]|x] eqn:G; cbn [bind] in H;
      try discriminate.
    + destruct (dec_lt d MIN_VALUE) as [[|]|x] eqn:L; cbn [bind] in H;
        try discriminate.
      * destruct (quantize d (quantum cur)) as [r|x] eqn:Q; cbn [bind] in H;
          [discriminate|].
        apply quantize_raises in Q. destruct Q as [sg ->]. discriminate.
      * unfold dec_lt, dec_order in L. destruct (dec_compare d MIN_VALUE);
          [discriminate|]. injection L as <-. discriminate.
    + unfold dec_gt, dec_order in G. destruct (dec_compare d MAX_VALUE);
        [discriminate|]. injection G as <-. discriminate.
  - destruct (Money_init_raise_kind v cur _ H) as [K|K]; discriminate.
  - right. right. exists sg. reflexivity.
Qed.

(** Behind the handler, the re-construction gives [NotImplemented] exactly
    for a result outside the range. *)
Lemma number_path_NotImplemented r cur :
  except_NotImplemented (new_Money r cur) = Return NotImplemented <->
  outside_range r.
Proof.
  unfold new_Money. split.
  - intros H.
    destruct (__init__ (VDecimal r) cur) as [m|e] eqn:Hi; cbn [bind] in H;
      [discriminate|].
    apply (Money_init_range_error (VDecimal r) cur r eq_refl).
    exists e. split; [exact Hi|].
    destruct (Money_init_raises _ _ _ Hi) as [->|[->|[sg ->]]];
      try reflexivity. discriminate.
  - intros H.
    destruct (proj2 (Money_init_range_error (VDecimal r) cur r eq_refl) H)
      as (e & -> & Hk).
    cbn [bind]. destruct e as [site| |sg]; try discriminate. reflexivity.
Qed.

Lemma add_number a k :
  (forall m, k <> VMoney m) ->
  __add__ a k =
    except_NotImplemented
      (d <- Decimal_of_str (py_str k) ;;
       s <- dec_add (value a) d ;; new_Money s (currency a)).
Proof. intros H. destruct k; try reflexivity. exfalso. eapply H. reflexivity. Qed.

Lemma sub_number a k :
  (forall m, k <> VMoney m) ->
  __sub__ a k =
    except_NotImplemented
      (d <- Decimal_of_str (py_str k) ;;
       s <- dec_sub (value a) d ;; new_Money s (currency a)).
Proof. intros H. destruct k; try reflexivity. exfalso. eapply H. reflexivity. Qed.

Lemma mul_number a k :
  (forall m, k <> VMoney m) ->
  __mul__ a k =
    except_NotImplemented
      (d <- Decimal_of_str (py_str k) ;;
       p <- dec_mul (value a) d ;; new_Money p (currency a)).
Proof. intros H. destruct k; try reflexivity. exfalso. eapply H. reflexivity. Qed.

Lemma div_number a k :
  (forall m, k <> VMoney m) ->
  __truediv__ a k =
    except_NotImplemented
      (divisor <- Decimal_of_str (py_str k) ;;
       z <- dec_eq divisor zero ;;
       if z : bool then Raise ZeroDivisionError
       else q <- dec_div (value a) divisor ;; new_Money q (currency a)).
Proof. intros H. destruct k; try reflexivity. exfalso. eapply H. reflexivity. Qed.

(** X6: with an operand that is not an amount and converts to the decimal
    [d], each of [a + k], [a - k], [k - a], [a * k] and (for [d] not zero)
    [a / k] returns [NotImplemented] exactly when the decimal result of the
    operation lies outside [[MIN_VALUE, MAX_VALUE]]: the range error of the
    re-construction never reaches the caller. *)
Theorem plain_operand_out_of_range (a : Money) (k : PyValue) (d : Decimal) :
  (forall m, k <> VMoney m) -> Decimal_of_str (py_str k) = Return d ->
  (forall r, dec_add (value a) d = Return r ->
     (__add__ a k = Return NotImplemented <-> outside_range r)) /\
  (forall r, dec_sub (value a) d = Return r ->
     (__sub__ a k = Return NotImplemented <-> outside_range r)) /\
  (forall r, dec_sub d (value a) = Return r ->
     (__rsub__ a k = Return NotImplemented <-> outside_range r)) /\
  (forall r, dec_mul (value a) d = Return r ->
     (__mul__ a k = Return NotImplemented <-> outside_range r)) /\
  (forall r, dec_eq d zero = Return false -> dec_div (value a) d = Return r ->
     (__truediv__ a k = Return NotImplemented <-> outside_range r)).
Proof.
  intros Hk Hd.
  rewrite (add_number a k Hk), (sub_number a k Hk), (mul_number a k Hk),
    (div_number a k Hk).
  unfold __rsub__. rewrite Hd. cbn [bind].
  split; [|split; [|split; [|split]]]; intros r;
    try (intros Hr; rewrite Hr; cbn [bind]; apply number_path_NotImplemented).
  intros Hz Hr. rewrite Hz, Hr. cbn [bind]. apply number_path_NotImplemented.
Qed.

Lemma plain_operand_out_of_range_witness :
  __add__ (dollars 999999999999) (VInt 1) = Return NotImplemented <->
  outside_range (Fin false 100000000000000 (-2)).
Proof.
  apply (proj1 (plain_operand_out_of_range (dollars 999999999999) (VInt 1)
                  (Fin false 1 0) ltac:(discriminate) eq_refl)).
  vm_compute. reflexivity.
Defined.

(** X7: an operand that is not an amount and whose text is not a decimal
    literal makes [+], [-] (either side), [*] and [/] raise the decimal
    module's conversion error: it is not a [ValueError] or [TypeError], so
    the handler does not turn it into [NotImplemented]. *)
Theorem plain_operand_unconvertible (a : Money) (k : PyValue) (e : exn) :
  (forall m, k <> VMoney m) -> Decimal_of_str (py_str k) = Raise e ->
  forall op,
    In op [__add__; __radd__; __sub__; __rsub__; __mul__; __rmul__; __truediv__] ->
    op a k = Raise (DecimalException ConversionSyntax).
Proof.
  intros Hk He op Hop.
  pose proof (Decimal_of_str_raises _ _ He) as ->.
  simpl in Hop.
  destruct Hop as [<-|[<-|[<-|[<-|[<-|[<-|[<-|[]]]]]]]];
    unfold __radd__, __rmul__;
    rewrite ?(add_number a k Hk), ?(sub_number a k Hk), ?(mul_number a k Hk),
      ?(div_number a k Hk);
    unfold __rsub__; rewrite He; reflexivity.
Qed.

Lemma plain_operand_unconvertible_witness :
  __rsub__ (dollars 1) VNone = Raise (DecimalException ConversionSyntax).
Proof.
  apply (plain_operand_unconvertible (dollars 1) VNone
           (DecimalException ConversionSyntax)).
  - discriminate.
  - vm_compute. reflexivity.
  - simpl. tauto.
Defined.

(** ** Neutral operands, opposites and ratios *)

Lemma in_range_zero s e : in_range (Fin s 0 e).
Proof.
  apply in_range_abs.
  assert (E : (Qval false 0 e == 0)%Q) by (unfold Qval, signed; simpl; ring).
  rewrite E. discriminate.
Qed.

Lemma dec_add_zero_r s c e s0 :
  Etiny <= e <= 0 -> ndigits c <= prec ->
  dec_add (Fin s c e) (Fin s0 0 0) =
    Return (Fin (if (c =? 0)%N then s && s0 else s) c e).
Proof.
  intros He Hn. unfold dec_add, check_nans.
  replace (Z.min e 0) with e by lia.
  assert (Z0 : scaled s0 0 0 e = 0) by (unfold scaled; simpl; lia).
  rewrite Z0, Z.add_0_r, scaled_signed.
  replace (e - e) with 0 by lia. rewrite pow10_0, Z.mul_1_r.
  rewrite (signed_abs s c (signed s c) eq_refl).
  change (0 =? 0)%N with true.
  destruct (N.eqb_spec c 0) as [->|Hc].
  - unfold signed. replace (if s then - Z.of_N 0 else Z.of_N 0) with 0
      by (destruct s; reflexivity).
    simpl (0 =? 0). cbv iota.
    replace (true && true && s && s0) with (s && s0) by reflexivity.
    apply fix_ctx_stored; assumption.
  - assert (V : signed s c <> 0) by (unfold signed; destruct s; lia).
    destruct (Z.eqb_spec (signed s c) 0) as [E|_]; [contradiction|].
    replace (signed s c <? 0) with s.
    + apply fix_ctx_stored; assumption.
    + unfold signed. destruct s; symmetry;
        [apply Z.ltb_lt | apply Z.ltb_ge]; lia.
Qed.

Lemma strip_zeros_pow10 n : forall c e,
  strip_zeros n (c * pow10 (Z.of_nat n)) e = (c, e + Z.of_nat n).
Proof.
  induction n as [|n IH]; intros c e.
  - simpl. rewrite N.mul_1_r. f_equal. lia.
  - rewrite Nat2Z.inj_succ. unfold Z.succ.
    rewrite pow10_succ by lia. cbn [strip_zeros].
    replace (c * (10 * pow10 (Z.of_nat n)))%N
      with (c * pow10 (Z.of_nat n) * 10)%N by lia.
    rewrite N.Div0.mod_mul, N.div_mul by lia.
    change (0 =? 0)%N with true. cbv iota.
    rewrite IH. f_equal. lia.
Qed.

Lemma dec_mul_one s c e :
  Etiny <= e <= 0 -> ndigits c <= prec ->
  dec_mul (Fin s c e) (Fin false 1 0) = Return (Fin s c e).
Proof.
  intros He Hn. unfold dec_mul, check_nans.
  rewrite xorb_false_r, N.mul_1_r, Z.add_0_r.
  apply fix_ctx_stored; assumption.
Qed.

Lemma dec_div_one s c e :
  Etiny <= e <= 0 -> ndigits c <= prec ->
  dec_div (Fin s c e) (Fin false 1 0) = Return (Fin s c e).
Proof.
  intros He Hn. unfold dec_div, check_nans.
  change (1 =? 0)%N with false. cbv iota.
  rewrite xorb_false_r, Z.sub_0_r.
  destruct (N.eqb_spec c 0) as [->|Hc]; [apply fix_ctx_stored; assumption|].
  pose proof (ndigits_pos c) as P.
  rewrite (ndigits_small 1) by reflexivity.
  set (shift := 1 - ndigits c + prec + 1).
  assert (Hs : 0 <= shift) by (unfold shift; lia).
  destruct (Z.leb_spec 0 shift) as [_|]; [|lia].
  rewrite N.div_1_r, N.mod_1_r. change (0 =? 0)%N with true. cbv iota.
  replace (e - (e - shift)) with shift by lia.
  replace (c * pow10 shift)%N with (c * pow10 (Z.of_nat (Z.to_nat shift)))%N
    by (rewrite Z2Nat.id by lia; reflexivity).
  rewrite strip_zeros_pow10, Z2Nat.id by lia.
  replace (e - shift + shift) with e by lia.
  apply fix_ctx_stored; assumption.
Qed.

Lemma dec_div_self s c e :
  c <> 0%N -> dec_div (Fin s c e) (Fin s c e) = Return (Fin false 1 0).
Proof.
  intros Hc. unfold dec_div, check_nans.
  apply N.eqb_neq in Hc as Hb. rewrite Hb.
  rewrite xorb_nilpotent.
  replace (ndigits c - ndigits c + prec + 1) with 29 by (unfold prec; lia).
  replace (e - e) with 0 by lia.
  cbn [Z.leb Z.compare].
  replace (c * pow10 29)%N with (pow10 29 * c)%N by lia.
  rewrite N.Div0.mod_mul, N.div_mul by exact Hc.
  change (0 =? 0)%N with true. cbv iota.
  replace (pow10 29) with (1 * pow10 (Z.of_nat 29))%N by reflexivity.
  replace (Z.to_nat (0 - (0 - 29))) with 29%nat by reflexivity.
  rewrite strip_zeros_pow10. vm_compute. reflexivity.
Qed.

Lemma eq_same_value cur s s' c e :
  (c = 0%N \/ s = s') ->
  __eq__ {| value := Fin s c e; currency := cur |}
         (VMoney {| value := Fin s' c e; currency := cur |}) = Return (VBool true).
Proof. apply eq_same_magnitude. Qed.

(** X8: on an existing amount [m] whose number lies within
    [[MIN_VALUE, MAX_VALUE]], the neutral operands are neutral: [m - 0],
    [m * 1] and [m / 1] return [m] itself, and [m + 0] and [0 + m] (the
    first step of [sum]) return an amount equal to [m]. *)
Theorem neutral_operands (m : Money) :
  constructed m -> in_range (value m) ->
  __sub__ m (VInt 0) = Return (VMoney m) /\
  __mul__ m (VInt 1) = Return (VMoney m) /\
  __truediv__ m (VInt 1) = Return (VMoney m) /\
  exists m', __add__ m (VInt 0) = Return (VMoney m') /\
             __radd__ m (VInt 0) = Return (VMoney m') /\
             __eq__ m' (VMoney m) = Return (VBool true).
Proof.
  intros Hm Hr.
  destruct (constructed_value m Hm) as (s & c & E & Hn & He).
  destruct m as [v cur]. cbn [value currency] in *. subst v.
  assert (H0 : Decimal_of_str (py_str (VInt 0)) = Return (Fin false 0 0))
    by (vm_compute; reflexivity).
  assert (H1 : Decimal_of_str (py_str (VInt 1)) = Return (Fin false 1 0))
    by (vm_compute; reflexivity).
  assert (Z1 : dec_eq (Fin false 1 0) zero = Return false)
    by (vm_compute; reflexivity).
  unfold __radd__, __add__, __sub__, __mul__, __truediv__.
  rewrite H0, H1. cbn [bind value currency]. rewrite Z1. cbn [bind].
  unfold dec_sub. cbn [check_nans copy_negate negb].
  rewrite !dec_add_zero_r, dec_mul_one, dec_div_one by assumption.
  cbn [bind]. unfold new_Money.
  replace (if (c =? 0)%N then s && true else s) with s
    by (destruct (c =? 0)%N, s; reflexivity).
  rewrite !Money_init_same_exp;
    try assumption; try lia; try (eapply in_range_sign; exact Hr).
  cbn [bind except_NotImplemented].
  repeat (split; [reflexivity|]).
  eexists. split; [reflexivity|]. split; [reflexivity|].
  apply eq_same_value.
  destruct (N.eqb_spec c 0) as [->|_]; [left; reflexivity|right; reflexivity].
Qed.

Lemma neutral_operands_witness :
  __sub__ (dollars 5) (VInt 0) = Return (VMoney (dollars 5)) /\
  __mul__ (dollars 5) (VInt 1) = Return (VMoney (dollars 5)) /\
  __truediv__ (dollars 5) (VInt 1) = Return (VMoney (dollars 5)) /\
  exists m', __add__ (dollars 5) (VInt 0) = Return (VMoney m') /\
             __radd__ (dollars 5) (VInt 0) = Return (VMoney m') /\
             __eq__ m' (VMoney (dollars 5)) = Return (VBool true).
Proof.
  apply (neutral_operands (dollars 5)).
  - exists (VInt 5), USD. vm_compute. reflexivity.
  - split; vm_compute; discriminate.
Defined.

Lemma add_to_zero cur s1 c1 s2 c2 :
  Etiny <= stored_exp cur ->
  signed s1 c1 + signed s2 c2 = 0 ->
  exists s',
    dec_add (Fin s1 c1 (stored_exp cur)) (Fin s2 c2 (stored_exp cur)) =
      Return (Fin s' 0 (stored_exp cur)) /\
    new_Money (Fin s' 0 (stored_exp cur)) cur =
      Return (VMoney {| value := Fin s' 0 (stored_exp cur); currency := cur |}).
Proof.
  intros He Hv. pose proof (stored_exp_nonpos cur) as Hs.
  assert (Hn : ndigits (Z.abs_N (signed s1 c1 + signed s2 c2)) <= prec).
  { rewrite Hv. rewrite ndigits_small by reflexivity. unfold prec. lia. }
  destruct (dec_add_same_exp s1 c1 s2 c2 (stored_exp cur) ltac:(lia) Hn)
    as (s' & Hadd & _).
  rewrite Hv in Hadd. exists s'. split; [exact Hadd|].
  unfold new_Money. rewrite Money_init_same_exp; try assumption.
  - reflexivity.
  - rewrite ndigits_small by reflexivity. unfold prec. lia.
  - apply in_range_zero.
Qed.

Lemma Qval_zero s e : (Qval s 0 e == 0)%Q.
Proof. unfold Qval, signed. destruct s; simpl; ring. Qed.

(** X9: an existing amount minus itself is an amount of the same currency
    holding zero (also for an amount stored past [MAX_VALUE]); and when the
    number of [m] lies within the range, [0 - m] is the amount [-m], and
    [m + (-m)] holds zero. *)
Theorem opposites_cancel (m : Money) :
  constructed m ->
  (exists z, __sub__ m (VMoney m) = Return (VMoney z) /\
             currency z = currency m /\ (amount_Q z == 0)%Q) /\
  (in_range (value m) ->
   exists n z, __neg__ m = Return (VMoney n) /\
               __rsub__ m (VInt 0) = Return (VMoney n) /\
               __add__ m (VMoney n) = Return (VMoney z) /\
               currency z = currency m /\ (amount_Q z == 0)%Q).
Proof.
  intros Hm.
  destruct (constructed_value m Hm) as (s & c & E & Hn & He).
  destruct m as [v cur]. cbn [value currency] in *. subst v.
  split.
  - destruct (add_to_zero cur s c (negb s) c (proj1 He)) as (s' & Hadd & Hnew).
    { rewrite signed_negb. lia. }
    unfold __sub__, _check_same_currency, dec_sub. cbn [value currency].
    rewrite (proj2 (Currency_eqb_code cur cur) eq_refl).
    cbn [negb bind value currency check_nans copy_negate].
    rewrite Hadd. cbn [bind]. rewrite Hnew.
    eexists. split; [reflexivity|]. split; [reflexivity|].
    unfold amount_Q. cbn [value]. apply Qval_zero.
  - intros Hr.
    set (sn := if (c =? 0)%N then false else negb s).
    destruct (add_to_zero cur s c sn c (proj1 He)) as (s' & Hadd & Hnew).
    { unfold sn. destruct (N.eqb_spec c 0) as [->|_].
      - unfold signed. destruct s; reflexivity.
      - rewrite signed_negb. lia. }
    exists {| value := Fin sn c (stored_exp cur); currency := cur |}.
    eexists. split; [apply neg_amount; assumption || lia|].
    split.
    + unfold __rsub__.
      replace (Decimal_of_str (py_str (VInt 0))) with (Return (Fin false 0 0))
        by (vm_compute; reflexivity).
      cbn [bind value currency]. unfold dec_sub.
      cbn [check_nans copy_negate].
      rewrite dec_add_comm, dec_add_zero_r by assumption.
      cbn [bind]. unfold new_Money.
      replace (if (c =? 0)%N then negb s && false else negb s) with sn
        by (unfold sn; destruct (c =? 0)%N, s; reflexivity).
      rewrite Money_init_same_exp;
        try assumption; try lia; try (eapply in_range_sign; exact Hr).
      reflexivity.
    + unfold __add__, _check_same_currency. cbn [value currency].
      rewrite (proj2 (Currency_eqb_code cur cur) eq_refl).
      cbn [negb bind value currency]. rewrite Hadd. cbn [bind]. rewrite Hnew.
      split; [reflexivity|]. split; [reflexivity|].
      unfold amount_Q. cbn [value]. apply Qval_zero.
Qed.

Lemma opposites_cancel_witness :
  (exists z, __sub__ (dollars 5) (VMoney (dollars 5)) = Return (VMoney z) /\
             currency z = currency (dollars 5) /\ (amount_Q z == 0)%Q) /\
  (in_range (value (dollars 5)) ->
   exists n z, __neg__ (dollars 5) = Return (VMoney n) /\
               __rsub__ (dollars 5) (VInt 0) = Return (VMoney n) /\
               __add__ (dollars 5) (VMoney n) = Return (VMoney z) /\
               currency z = currency (dollars 5) /\ (amount_Q z == 0)%Q).
Proof.
  apply (opposites_cancel (dollars 5)).
  exists (VInt 5), USD. vm_compute. reflexivity.
Defined.

(** X10: on an existing amount whose number [x] lies within the range,
    [-m] holds [-x] and [abs(m)] holds [|x|], both in the currency of [m]. *)
Theorem negation_and_absolute_value (m : Money) :
  constructed m -> in_range (value m) ->
  exists n p,
    __neg__ m = Return (VMoney n) /\ __abs__ m = Return (VMoney p) /\
    currency n = currency m /\ currency p = currency m /\
    (amount_Q n == - amount_Q m)%Q /\ (amount_Q p == Qabs (amount_Q m))%Q.
Proof.
  intros Hm Hr.
  destruct (constructed_value m Hm) as (s & c & E & Hn & He).
  destruct m as [v cur]. cbn [value currency] in *. subst v.
  eexists. eexists.
  split; [apply neg_amount; assumption || lia|].
  split; [apply abs_amount; assumption || lia|].
  split; [reflexivity|]. split; [reflexivity|].
  unfold amount_Q. cbn [value]. split.
  - destruct (N.eqb_spec c 0) as [->|_].
    + rewrite !Qval_zero. reflexivity.
    + unfold Qval. rewrite signed_negb, inject_Z_opp. ring.
  - symmetry. apply Qabs_Qval.
Qed.

Lemma negation_and_absolute_value_witness :
  exists n p,
    __neg__ (dollars 5) = Return (VMoney n) /\
    __abs__ (dollars 5) = Return (VMoney p) /\
    currency n = currency (dollars 5) /\ currency p = currency (dollars 5) /\
    (amount_Q n == - amount_Q (dollars 5))%Q /\
    (amount_Q p == Qabs (amount_Q (dollars 5)))%Q.
Proof.
  apply (negation_and_absolute_value (dollars 5)).
  - exists (VInt 5), USD. vm_compute. reflexivity.
  - split; vm_compute; discriminate.
Defined.

(** X11: an existing amount whose number is not zero, divided by itself,
    gives the decimal 1. *)
Theorem ratio_to_itself (m : Money) :
  constructed m -> is_zero (value m) = false ->
  __truediv__ m (VMoney m) = Return (VDecimal (Fin false 1 0)).
Proof.
  intros Hm Hz.
  destruct (constructed_value m Hm) as (s & c & E & _).
  unfold __truediv__, _check_same_currency.
  rewrite (proj2 (Currency_eqb_code _ _) eq_refl), E in *.
  cbn [negb bind]. rewrite dec_eq_zero. simpl in Hz. rewrite Hz.
  cbn [bind]. rewrite dec_div_self; [reflexivity|].
  apply N.eqb_neq, Hz.
Qed.

Lemma ratio_to_itself_witness :
  __truediv__ (dollars 5) (VMoney (dollars 5)) = Return (VDecimal (Fin false 1 0)).
Proof.
  apply (ratio_to_itself (dollars 5)).
  - exists (VInt 5), USD. vm_compute. reflexivity.
  - reflexivity.
Defined.

(** ** The texts of an amount *)

Lemma split_at_separator (sep : ascii) (a : str) : forall b x y,
  ~ In sep a -> ~ In sep b ->
  a ++ sep :: x = b ++ sep :: y -> a = b /\ x = y.
Proof.
  induction a as [|h a IH]; intros [|k b] x y Ha Hb H; simpl in *.
  - injection H as ->. split; reflexivity.
  - injection H as -> _. exfalso. apply Hb. left. reflexivity.
  - injection H as -> _. exfalso. apply Ha. left. reflexivity.
  - injection H as -> H.
    destruct (IH b x y) as [-> ->]; try assumption.
    + intros I. apply Ha. right. exact I.
    + intros I. apply Hb. right. exact I.
    + split; reflexivity.
Qed.

Lemma literal_char_not_separator c :
  literal_char c = true -> c <> " "%char /\ c <> ","%char.
Proof.
  intros H. split; intros ->; discriminate H.
Qed.

Lemma dec_str_no_separator s c e :
  ~ In " "%char (dec_str (Fin s c e)) /\ ~ In ","%char (dec_str (Fin s c e)).
Proof.
  destruct (Decimal_of_dec_str s c e) as (_ & Hl & _).
  rewrite forallb_forall in Hl.
  split; intros I; apply Hl, literal_char_not_separator in I;
    destruct I as [A B]; congruence.
Qed.

Lemma dec_str_injective s1 c1 e1 s2 c2 e2 :
  dec_str (Fin s1 c1 e1) = dec_str (Fin s2 c2 e2) ->
  Fin s1 c1 e1 = Fin s2 c2 e2.
Proof.
  intros H.
  pose proof (proj1 (Decimal_of_dec_str s1 c1 e1)) as A.
  pose proof (proj1 (Decimal_of_dec_str s2 c2 e2)) as B.
  rewrite H, B in A. injection A as -> -> ->. reflexivity.
Qed.

(** X12: the text of an amount determines it: two existing amounts with the
    same [str()], or the same [repr()], hold the same decimal (sign,
    coefficient and exponent, so trailing zeros too) and have the same
    currency code, whatever characters the codes contain. *)
Theorem text_determines_amount (a b : Money) :
  constructed a -> constructed b ->
  __str__ a = __str__ b \/ __repr__ a = __repr__ b ->
  value a = value b /\ code (currency a) = code (currency b).
Proof.
  intros Ha Hb H.
  destruct (constructed_value a Ha) as (sa & ca & Ea & _).
  destruct (constructed_value b Hb) as (sb & cb & Eb & _).
  unfold __str__, __repr__ in H. rewrite Ea, Eb in *.
  destruct (dec_str_no_separator sa ca (stored_exp (currency a))) as [A1 A2].
  destruct (dec_str_no_separator sb cb (stored_exp (currency b))) as [B1 B2].
  destruct H as [H|H].
  - apply (split_at_separator " "%char) in H; try assumption.
    destruct H as [H1 H2]. split; [|exact H2].
    apply dec_str_injective, H1.
  - apply app_inv_head in H.
    apply (split_at_separator ","%char) in H; try assumption.
    destruct H as [H1 H2]. split; [apply dec_str_injective, H1|].
    injection H2 as H2. apply app_inv_tail in H2. exact H2.
Qed.

Lemma text_determines_amount_witness :
  value (dollars 5) = value (dollars 5) /\
  code (currency (dollars 5)) = code (currency (dollars 5)).
Proof.
  apply (text_determines_amount (dollars 5) (dollars 5)).
  - exists (VInt 5), USD. vm_compute. reflexivity.
  - exists (VInt 5), USD. vm_compute. reflexivity.
  - left. reflexivity.
Defined.

(** ** Construction from an integer *)





(** ** A precision that is not positive *)

Lemma quantum_nonpositive cur :
  precision cur <= 0 ->
  quantum cur = quantum {| code := code cur; precision := 0 |} /\
  stored_exp cur = 0.
Proof.
  intros H. unfold quantum, stored_exp. cbn [precision].
  destruct (Z.gtb_spec (precision cur) 0); [lia|]. split; reflexivity.
Qed.

(** X14: a currency whose precision is zero or negative is quantized to
    whole numbers: construction behaves as with precision 0 (the same error,
    or the same stored number), and what is stored has exponent 0. *)
Theorem nonpositive_precision (v : PyValue) (cur : Currency) :
  precision cur <= 0 ->
  __init__ v cur =
    (m <- __init__ v {| code := code cur; precision := 0 |} ;;
     Return {| value := value m; currency := cur |}) /\
  (forall m, __init__ v cur = Return m -> exists s c, value m = Fin s c 0).
Proof.
  intros Hp. destruct (quantum_nonpositive cur Hp) as [Hq Hs]. split.
  - rewrite !Money_init_unfold, <- Hq.
    destruct (to_decimal v) as [d|x]; cbn [bind]; [|reflexivity].
    destruct (dec_gt d MAX_VALUE) as [[|]|x]; cbn [bind]; try reflexivity.
    destruct (dec_lt d MIN_VALUE) as [[|]|x]; cbn [bind]; try reflexivity.
    destruct (quantize d (quantum cur)) as [r|x]; reflexivity.
  - intros m Hm.
    apply Money_init_returns in Hm.
    destruct Hm as (s & c & e & _ & _ & -> & _).
    rewrite Hs. cbn [value]. eexists. eexists. reflexivity.
Qed.

Lemma nonpositive_precision_witness :
  __init__ (VStr (lit "2.5")) {| code := lit "JPY"; precision := -1 |} =
    (m <- __init__ (VStr (lit "2.5")) {| code := lit "JPY"; precision := 0 |} ;;
     Return {| value := value m;
               currency := {| code := lit "JPY"; precision := -1 |} |}) /\
  (forall m,
      __init__ (VStr (lit "2.5")) {| code := lit "JPY"; precision := -1 |} = Return m ->
      exists s c, value m = Fin s c 0).
Proof.
  apply (nonpositive_precision (VStr (lit "2.5"))
           {| code := lit "JPY"; precision := -1 |}).
  simpl. lia.
Defined.

Example whole_yen :
  __init__ (VStr (lit "2.5")) {| code := lit "JPY"; precision := 0 |} =
    Return {| value := Fin false 2 0;
              currency := {| code := lit "JPY"; precision := 0 |} |} /\
  __init__ (VStr (lit "3.5")) {| code := lit "JPY"; precision := -1 |} =
    Return {| value := Fin false 4 0;
              currency := {| code := lit "JPY"; precision := -1 |} |}.
Proof. split; vm_compute; reflexivity. Qed.

(** ** Multiplication by an integer *)




(** ** White space around the parts of a text *)

Lemma lstrip_blank ws x : blank ws -> lstrip (ws ++ x) = lstrip x.
Proof.
  unfold blank. induction ws as [|c ws IH]; intros H; [reflexivity|].
  simpl in H. apply andb_prop in H. destruct H as [Hc Hw].
  simpl. rewrite Hc. apply IH, Hw.
Qed.

Lemma blank_rev ws : blank ws -> blank (rev ws).
Proof.
  unfold blank. rewrite !forallb_forall. intros H c Hc.
  apply H, in_rev, Hc.
Qed.

Lemma strip_surrounded ws1 ws3 x :
  blank ws1 -> blank ws3 -> strip x = x -> x <> [] ->
  strip (ws1 ++ x ++ ws3) = x.
Proof.
  intros H1 H3 Hx Hne. unfold strip in *.
  rewrite (lstrip_blank ws1 _ H1).
  assert (Hl : lstrip x = x).
  { destruct x as [|c r]; [congruence|]. simpl in *.
    destruct (is_space c) eqn:Hc; [|reflexivity].
    exfalso.
    apply (f_equal (@List.length ascii)) in Hx.
    rewrite length_rev in Hx.
    assert (A : forall s, (List.length (lstrip s) <= List.length s)%nat).
    { induction s as [|a s IH]; simpl; [lia|].
      destruct (is_space a); simpl; lia. }
    pose proof (A (rev (lstrip r))) as B. rewrite length_rev in B.
    pose proof (A r). simpl in Hx. lia. }
  assert (Hl' : lstrip (x ++ ws3) = x ++ ws3).
  { destruct x as [|c r]; [congruence|]. simpl in *.
    destruct (is_space c); [|reflexivity].
    exfalso. apply (f_equal (@List.length ascii)) in Hl.
    assert (A : forall s, (List.length (lstrip s) <= List.length s)%nat).
    { induction s as [|a s IH]; simpl; [lia|].
      destruct (is_space a); simpl; lia. }
    pose proof (A r). simpl in Hl. lia. }
  rewrite Hl', rev_app_distr, (lstrip_blank _ _ (blank_rev ws3 H3)).
  rewrite Hl in Hx. exact Hx.
Qed.

Lemma split_loop_blank ws r : blank ws -> split_loop (ws ++ r) [] = split_loop r [].
Proof.
  unfold blank. induction ws as [|c ws IH]; intros H; [reflexivity|].
  simpl in H. apply andb_prop in H. destruct H as [Hc Hw].
  simpl. rewrite Hc. apply IH, Hw.
Qed.

Lemma split_parts v ws c :
  token v -> token c -> blank ws -> ws <> [] ->
  split (v ++ ws ++ c) = [v; c].
Proof.
  intros [Hv Sv] [Hc Sc] Hw Hne. unfold split.
  rewrite (split_loop_word v _ [] Sv), app_nil_r.
  destruct ws as [|sp ws]; [congruence|].
  unfold blank in Hw. simpl in Hw. apply andb_prop in Hw. destruct Hw as [Hs Hw].
  cbn [app split_loop]. rewrite Hs.
  assert (Rv : rev v <> []).
  { intros E. apply (f_equal (@rev ascii)) in E.
    rewrite rev_involutive in E. exact (Hv E). }
  destruct (rev v) as [|x l] eqn:Er; [congruence|].
  rewrite <- Er, rev_involutive, (split_loop_blank ws c Hw).
  rewrite <- (app_nil_r c), (split_loop_word c [] [] Sc), app_nil_r.
  cbn [split_loop].
  assert (Rc : rev c <> []).
  { intros E. apply (f_equal (@rev ascii)) in E.
    rewrite rev_involutive in E. exact (Hc E). }
  destruct (rev c) as [|y k] eqn:Ec; [congruence|].
  rewrite <- Ec, rev_involutive, app_nil_r. reflexivity.
Qed.

Lemma strip_parts v ws c :
  token v -> token c -> strip (v ++ ws ++ c) = v ++ ws ++ c.
Proof.
  intros Tv Tc.
  destruct (token_head v Tv) as (x & r & Ev & Hx).
  destruct (token_head (rev c) (token_rev c Tc)) as (y & u & Ec & Hy).
  apply (strip_ends _ x (r ++ ws ++ c) y (u ++ rev ws ++ rev v)).
  - rewrite Ev. reflexivity.
  - rewrite !rev_app_distr, <- app_assoc, Ec. reflexivity.
  - exact Hx.
  - exact Hy.
Qed.

(** X16: [from_str] does not depend on the white space of its text: with
    any white space before the value part, any non-empty white space between
    the two parts and any white space after the currency part, the result is
    that for the two parts separated by one space. *)
Theorem parsing_ignores_white_space
    (lookup : str -> outcome Currency) (v c ws1 ws2 ws3 : str) :
  token v -> token c -> blank ws1 -> blank ws2 -> blank ws3 -> ws2 <> [] ->
  from_str lookup (ws1 ++ (v ++ ws2 ++ c) ++ ws3) =
    from_str lookup (v ++ " "%char :: c).
Proof.
  intros Tv Tc B1 B2 B3 Hne.
  assert (Hx : v ++ ws2 ++ c <> []).
  { destruct Tv as [Hv _]. destruct v; [congruence | discriminate]. }
  rewrite (from_str_two_parts lookup _ v c).
  - rewrite (from_str_two_parts lookup (v ++ " "%char :: c) v c); [reflexivity|].
    rewrite strip_two by assumption. apply split_two; assumption.
  - rewrite (strip_surrounded ws1 ws3 _ B1 B3 (strip_parts v ws2 c Tv Tc) Hx).
    apply split_parts; assumption.
Qed.

Lemma parsing_ignores_white_space_witness :
  from_str (fun _ => Return USD)
    (lit "  " ++ (lit "1000.505" ++ lit "   " ++ lit "USD") ++ lit " ") =
  from_str (fun _ => Return USD) (lit "1000.505" ++ " "%char :: lit "USD").
Proof.
  apply (parsing_ignores_white_space (fun _ => Return USD)
           (lit "1000.505") (lit "USD") (lit "  ") (lit "   ") (lit " "));
    try reflexivity; try discriminate; split; try discriminate; reflexivity.
Defined.

(** ** What the operators return *)

Lemma new_Money_returns d cur m :
  new_Money d cur = Return (VMoney m) -> constructed m /\ currency m = cur.
Proof.
  intros H. split; [apply (new_Money_constructed d cur m H)|].
  unfold new_Money in H. apply bind_Return_inv in H.
  destruct H as (m' & Hm & H). injection H as <-.
  apply Money_init_returns in Hm.
  destruct Hm as (s & c & e & _ & _ & -> & _). reflexivity.
Qed.

Lemma binary_body_returns (conv : outcome Decimal)
    (f : Decimal -> outcome Decimal) cur m :
  (d <- conv ;; r <- f d ;; new_Money r cur) = Return (VMoney m) ->
  constructed m /\ currency m = cur.
Proof.
  intros H. apply bind_Return_inv in H. destruct H as (d & _ & H).
  apply bind_Return_inv in H. destruct H as (r & _ & H).
  apply (new_Money_returns r cur m H).
Qed.

Lemma binary_operator_returns a k m op :
  In op [__add__; __radd__; __sub__; __rsub__; __mul__; __rmul__; __truediv__] ->
  op a k = Return (VMoney m) -> constructed m /\ currency m = currency a.
Proof.
  intros Hop H. simpl in Hop.
  destruct Hop as [<-|[<-|[<-|[<-|[<-|[<-|[<-|[]]]]]]]];
    unfold __radd__, __rmul__ in H.
  - destruct k; try (apply except_NotImplemented_Money in H;
                     apply (binary_body_returns _ _ _ _ H)).
    unfold __add__ in H. apply bind_Return_inv in H. destruct H as (u & _ & H).
    apply bind_Return_inv in H. destruct H as (r & _ & H).
    apply (new_Money_returns _ _ _ H).
  - destruct k; try (apply except_NotImplemented_Money in H;
                     apply (binary_body_returns _ _ _ _ H)).
    unfold __add__ in H. apply bind_Return_inv in H. destruct H as (u & _ & H).
    apply bind_Return_inv in H. destruct H as (r & _ & H).
    apply (new_Money_returns _ _ _ H).
  - destruct k; try (apply except_NotImplemented_Money in H;
                     apply (binary_body_returns _ _ _ _ H)).
    unfold __sub__ in H. apply bind_Return_inv in H. destruct H as (u & _ & H).
    apply bind_Return_inv in H. destruct H as (r & _ & H).
    apply (new_Money_returns _ _ _ H).
  - unfold __rsub__ in H. apply except_NotImplemented_Money in H.
    apply (binary_body_returns _ (fun d => dec_sub d (value a)) _ _ H).
  - destruct k; try (apply except_NotImplemented_Money in H;
                     apply (binary_body_returns _ _ _ _ H)).
    discriminate.
  - destruct k; try (apply except_NotImplemented_Money in H;
                     apply (binary_body_returns _ _ _ _ H)).
    discriminate.
  - assert (B : forall conv,
               (divisor <- conv ;;
                z <- dec_eq divisor zero ;;
                if z : bool then Raise ZeroDivisionError
                else q <- dec_div (value a) divisor ;; new_Money q (currency a))
               = Return (VMoney m) ->
               constructed m /\ currency m = currency a).
    { intros conv B. apply bind_Return_inv in B. destruct B as (d & _ & B).
      apply bind_Return_inv in B. destruct B as ([|] & _ & B); [discriminate|].
      apply bind_Return_inv in B. destruct B as (q & _ & B).
      apply (new_Money_returns _ _ _ B). }
    destruct k; try (apply except_NotImplemented_Money in H; apply (B _ H)).
    unfold __truediv__ in H. apply bind_Return_inv in H. destruct H as (u & _ & H).
    apply bind_Return_inv in H. destruct H as ([|] & _ & H); [discriminate|].
    apply bind_Return_inv in H. destruct H as (q & _ & H). discriminate.
Qed.

(** X17: whatever amount an operator returns went through the constructor
    with the currency of the amount the operator was called on: every amount
    returned by [+], [-], [*], [/] (either side), by unary [-], [+] and
    [abs], is an amount that exists (so the invariant of construction holds
    for it) and has the currency of [self]; an amount returned by [from_str]
    exists as well. *)
Theorem operators_return_constructed_amounts :
  (forall (a : Money) (k : PyValue) (m : Money) op,
      In op [__add__; __radd__; __sub__; __rsub__; __mul__; __rmul__; __truediv__] ->
      op a k = Return (VMoney m) ->
      constructed m /\ currency m = currency a) /\
  (forall (a m : Money) op,
      In op [__neg__; __pos__; __abs__] ->
      op a = Return (VMoney m) ->
      constructed m /\ currency m = currency a) /\
  (forall (lookup : str -> outcome Currency) (text : str) (m : Money),
      from_str lookup text = Return m -> constructed m).
Proof.
  split; [|split].
  - intros a k m op. apply binary_operator_returns.
  - intros a m op Hop H. simpl in Hop.
    destruct Hop as [<-|[<-|[<-|[]]]].
    + unfold __neg__ in H. apply bind_Return_inv in H. destruct H as (d & _ & H).
      apply (new_Money_returns _ _ _ H).
    + apply (new_Money_returns _ _ _ H).
    + unfold __abs__ in H. apply bind_Return_inv in H. destruct H as (d & _ & H).
      apply (new_Money_returns _ _ _ H).
  - intros lookup text m H. unfold from_str in H.
    destruct (strip text) as [|x t]; [discriminate|].
    destruct (split (x :: t)) as [|v [|c [|y l]]]; try discriminate.
    apply bind_Return_inv in H. destruct H as (d & _ & H).
    apply bind_Return_inv in H. destruct H as (cur & _ & H).
    exists (VDecimal d), cur. exact H.
Qed.

Lemma operators_return_constructed_amounts_witness :
  constructed (dollars 3) /\ currency (dollars 3) = currency (dollars 1).
Proof.
  apply (proj1 operators_return_constructed_amounts
           (dollars 1) (VMoney (dollars 2)) (dollars 3) __add__).
  - left. reflexivity.
  - vm_compute. reflexivity.
Defined.

(** ** Amounts stored past the bounds *)

Lemma outside_of_not_in_range s c e s' :
  ~ in_range (Fin s c e) -> outside_range (Fin s' c e).
Proof.
  intros H. rewrite in_range_abs in H.
  assert (G : (MAX_Q < Qval false c e)%Q) by (apply Qnot_le_lt, H).
  simpl. destruct s'; [right|left; exact G].
  rewrite Qval_neg.
  assert (M : (MIN_Q == - MAX_Q)%Q) by reflexivity.
  rewrite M. apply Qopp_lt_compat. exact G.
Qed.

Lemma new_Money_outside d cur :
  outside_range d ->
  exists e, new_Money d cur = Raise e /\ kind_of e = Some RangeKind.
Proof.
  intros H. unfold new_Money.
  destruct (proj2 (Money_init_range_error (VDecimal d) cur d eq_refl) H)
    as (e & -> & Hk).
  exists e. split; [reflexivity | exact Hk].
Qed.

(** X18: on an existing amount whose stored number lies outside
    [[MIN_VALUE, MAX_VALUE]] (one that rounding carried past a bound), unary
    [-], unary [+] and [abs] all raise the range error. *)
Theorem unary_operations_past_the_bounds (m : Money) :
  constructed m -> ~ in_range (value m) ->
  forall op, In op [__neg__; __pos__; __abs__] ->
    exists e, op m = Raise e /\ kind_of e = Some RangeKind.
Proof.
  intros Hm Hr op Hop.
  destruct (constructed_value m Hm) as (s & c & E & Hn & He).
  rewrite E in Hr.
  assert (Hc : (c =? 0)%N = false).
  { apply N.eqb_neq. intros ->. apply Hr, in_range_zero. }
  simpl in Hop. destruct Hop as [<-|[<-|[<-|[]]]].
  - unfold __neg__, dec_neg, is_zero. rewrite E, Hc.
    cbn [copy_negate]. rewrite fix_ctx_stored by assumption. cbn [bind].
    apply new_Money_outside, (outside_of_not_in_range s), Hr.
  - unfold __pos__. rewrite E.
    apply new_Money_outside, (outside_of_not_in_range s), Hr.
  - unfold __abs__, dec_abs, dec_neg, dec_pos, sign_of, is_zero.
    rewrite E, Hc. cbn [copy_negate].
    destruct s; rewrite fix_ctx_stored by assumption; cbn [bind];
      apply new_Money_outside, (outside_of_not_in_range _ _ _ _ Hr).
Qed.

Lemma unary_operations_past_the_bounds_witness :
  exists e,
    __abs__ {| value := Fin false 100000000000000 (-2); currency := USD |} = Raise e /\
    kind_of e = Some RangeKind.
Proof.
  apply (unary_operations_past_the_bounds
           {| value := Fin false 100000000000000 (-2); currency := USD |}).
  - exists (VDecimal MAX_VALUE), USD. vm_compute. reflexivity.
  - intros [_ H]. vm_compute in H. apply H. reflexivity.
  - simpl. tauto.
Defined.
